(** * MDL module elements: registration, path lookup and uniform analysis

    A shallow embedding of [src/io/scene/mdl_elements/mdl_elements_module.cpp]:
    the three [Mdl_module::create_module] entry points, the shared
    [create_module_internal] finalisation, [find_path],
    [is_uniform_function], [can_enforce_uniform], [add_material] and
    [add_variant].

    Conventions.
    - A [DB::Tag] is a number, 0 is the invalid tag ([if( tag)] tests it).
    - A handle comparison [expr == p_expr] compares addresses; every
      expression node carries the address of the object it stands for.
    - The database transaction is explicit state: a function that stores
      returns the new transaction.
    - Code that dereferences a null handle or opens a [DB::Access] on a tag
      of another class has no defined result; it is [Undefined] here.
    - [ASSERT] is the release build's: it does nothing.
    - Logging and the diagnostic message sink are left out: no status or
      store depends on them. *)

From stdpp Require Import gmap strings list fin_maps.
From Stdlib Require Import ZArith Ascii String.

Local Open Scope string_scope.
Local Open Scope Z_scope.

Set Warnings "-register-all".

(** ** Results of partial code *)

Inductive res (A : Type) : Type :=
| Ok (a : A)
| Undefined
| Timeout.
Arguments Ok {A} a.
Arguments Undefined {A}.
Arguments Timeout {A}.

#[global] Instance res_ret : MRet res := fun A a => Ok a.

#[global] Instance res_bind : MBind res := fun A B k r =>
  match r with
  | Ok a => k a
  | Undefined => Undefined
  | Timeout => Timeout
  end.

Definition of_option {A : Type} (o : option A) : res A :=
  match o with
  | Some a => Ok a
  | None => Undefined
  end.

(** ** Types and their modifiers *)

Inductive Type_kind : Type :=
| TK_ALIAS | TK_BOOL | TK_INT | TK_ENUM | TK_FLOAT | TK_DOUBLE | TK_STRING
| TK_VECTOR | TK_MATRIX | TK_COLOR | TK_ARRAY | TK_STRUCT
| TK_TEXTURE | TK_LIGHT_PROFILE | TK_BSDF_MEASUREMENT
| TK_BSDF | TK_EDF | TK_VDF.

(** Modelled from the spec: the enumerators [MK_UNIFORM] and [MK_VARYING] of
    the qualifier bit-set {uniform, varying, neither}; the type headers are
    not among the sources.  They are two distinct bits. *)
Definition MK_NONE : Z := 0.
Definition MK_UNIFORM : Z := 2.
Definition MK_VARYING : Z := 4.

(** A type as the analysis sees it: its kind and the modifier bits that
    [get_all_type_modifiers] / [get_type_modifiers] return. *)
Record IType : Type := mkType {
  type_kind : Type_kind;
  type_modifiers : Z
}.

(** [(mods & mask) != 0] *)
Definition has_modifier (mods mask : Z) : bool :=
  negb (Z.land mods mask =? 0).

(** ** Semantics of definitions *)

Inductive Operator : Type :=
| OK_TERNARY
| OK_SELECT
| OK_CALL
| OK_UNARY (code : N)
| OK_BINARY (code : N).

Inductive Semantics : Type :=
| DS_UNKNOWN
| DS_INTRINSIC_DAG_FIELD_ACCESS
| DS_INTRINSIC_DAG_ARRAY_CONSTRUCTOR
| DS_INTRINSIC_DAG_INDEX_ACCESS
| DS_INTRINSIC_DAG_ARRAY_LENGTH
| DS_INTRINSIC_DAG_SET_OBJECT_ID
| DS_INTRINSIC_DAG_SET_TRANSFORMS
| DS_OPERATOR (op : Operator)
| DS_OTHER (code : N).

Definition operator_to_semantic (op : Operator) : Semantics := DS_OPERATOR op.

Definition semantic_is_operator (sema : Semantics) : bool :=
  match sema with
  | DS_OPERATOR _ => true
  | _ => false
  end.

Definition is_ternary_semantic (sema : Semantics) : bool :=
  match sema with
  | DS_OPERATOR OK_TERNARY => true
  | _ => false
  end.

(** ** Expressions *)

Definition Tag : Type := N.
Bind Scope N_scope with Tag.

(** [e_addr] is the address of the expression object, so that two handles
    are [==] exactly when the addresses agree. *)
Inductive IExpression : Type :=
| Expr_constant (e_addr : N) (e_type : IType)
| Expr_call (e_addr : N) (e_type : IType) (e_call : Tag)
| Expr_parameter (e_addr : N) (e_type : IType) (e_index : N)
| Expr_direct_call (e_addr : N) (e_type : IType) (e_definition : Tag)
    (e_arguments : list (string * IExpression))
| Expr_temporary (e_addr : N) (e_type : IType) (e_index : N).

Inductive Expression_kind : Type :=
| EK_CONSTANT | EK_CALL | EK_PARAMETER | EK_DIRECT_CALL | EK_TEMPORARY.

Definition get_kind (e : IExpression) : Expression_kind :=
  match e with
  | Expr_constant _ _ => EK_CONSTANT
  | Expr_call _ _ _ => EK_CALL
  | Expr_parameter _ _ _ => EK_PARAMETER
  | Expr_direct_call _ _ _ _ => EK_DIRECT_CALL
  | Expr_temporary _ _ _ => EK_TEMPORARY
  end.

Definition address (e : IExpression) : N :=
  match e with
  | Expr_constant a _ | Expr_call a _ _ | Expr_parameter a _ _
  | Expr_direct_call a _ _ _ | Expr_temporary a _ _ => a
  end.

Definition get_type (e : IExpression) : IType :=
  match e with
  | Expr_constant _ t | Expr_call _ t _ | Expr_parameter _ t _
  | Expr_direct_call _ t _ _ | Expr_temporary _ t _ => t
  end.

(** [expr == p_expr] on handles. *)
Definition same_handle (e1 e2 : IExpression) : bool :=
  N.eqb (address e1) (address e2).

(** [IExpression_list] and [IType_list]: ordered, with access by name and by
    index. *)
Definition IExpression_list : Type := list (string * IExpression).
Definition IType_list : Type := list (string * IType).

Fixpoint get_by_name {A : Type} (l : list (string * A)) (name : string)
  : option A :=
  match l with
  | [] => None
  | (n, a) :: l' => if String.eqb n name then Some a else get_by_name l' name
  end.

Definition get_by_index {A : Type} (l : list (string * A)) (i : nat)
  : option A :=
  snd <$> l !! i.

Definition get_name {A : Type} (l : list (string * A)) (i : nat)
  : option string :=
  fst <$> l !! i.

(** ** Modules of the compiler and generated DAG code *)

(** One function or material of the generated code, as the element
    constructors read it: name with signature, exported flag, semantics,
    parameters and return type. *)
Record Dag_entity : Type := mkDagEntity {
  dag_name : string;
  dag_exported : bool;
  dag_semantic : Semantics;
  dag_parameters : IType_list;
  dag_return_type : IType
}.

Record Generated_code_dag : Type := mkDag {
  error_message_count : nat;
  dag_functions : list Dag_entity;
  dag_materials : list Dag_entity
}.

(** [mi::mdl::IModule].  The answers of the external compiler services for
    a module are fields of the module: whether [restore_import_entries]
    succeeds, what [ICode_generator_dag::compile] returns (no code at all, or
    code with its error count and entities), and for [find_signature] the
    signatures the module defines with their [DP_IS_VARYING] property. *)
Inductive IModule : Type := mkModule {
  mod_name : string;
  mod_filename : string;
  mod_is_valid : bool;
  mod_version : Z * Z;
  mod_imports : list IModule;
  mod_restore_import_entries : bool;
  mod_compile : option Generated_code_dag;
  mod_signatures : list (string * bool)
}.

Definition find_signature (m : IModule) (sig : string) : option bool :=
  get_by_name (mod_signatures m) sig.

(** ** Database elements *)

Inductive Class_id : Type :=
| ID_MDL_MODULE
| ID_MDL_FUNCTION_DEFINITION
| ID_MDL_MATERIAL_DEFINITION
| ID_MDL_FUNCTION_CALL
| ID_MDL_MATERIAL_INSTANCE
| ID_OTHER (id : N).

Definition class_id_eqb (a b : Class_id) : bool :=
  match a, b with
  | ID_MDL_MODULE, ID_MDL_MODULE
  | ID_MDL_FUNCTION_DEFINITION, ID_MDL_FUNCTION_DEFINITION
  | ID_MDL_MATERIAL_DEFINITION, ID_MDL_MATERIAL_DEFINITION
  | ID_MDL_FUNCTION_CALL, ID_MDL_FUNCTION_CALL
  | ID_MDL_MATERIAL_INSTANCE, ID_MDL_MATERIAL_INSTANCE => true
  | ID_OTHER x, ID_OTHER y => N.eqb x y
  | _, _ => false
  end.

Record Mdl_module : Type := mkMdlModule {
  m_module : IModule;
  m_code_dag : Generated_code_dag;
  m_name : string;
  m_file_name : string;
  m_imports : list Tag;
  m_functions : list string;
  m_materials : list string
}.

(** Function and material definitions share their shape; the class of the
    element tells them apart. *)
Record Mdl_definition : Type := mkDefinition {
  def_module : Tag;
  def_tag : Tag;
  def_mdl_name : string;
  def_exported : bool;
  def_semantic : Semantics;
  def_parameter_types : IType_list;
  def_return_type : IType;
  def_prototype : Tag;
  def_defaults : IExpression_list
}.

Record Mdl_function_call : Type := mkFunctionCall {
  fc_function_definition : Tag;
  fc_arguments : IExpression_list;
  fc_parameter_types : IType_list
}.

Record Mdl_material_instance : Type := mkMaterialInstance {
  mi_material_definition : Tag;
  mi_mdl_material_definition : string;
  mi_arguments : IExpression_list;
  mi_parameter_types : IType_list
}.

Inductive Element : Type :=
| El_module (m : Mdl_module)
| El_function_definition (d : Mdl_definition)
| El_material_definition (d : Mdl_definition)
| El_function_call (c : Mdl_function_call)
| El_material_instance (i : Mdl_material_instance)
| El_other (id : N).

Definition class_of (el : Element) : Class_id :=
  match el with
  | El_module _ => ID_MDL_MODULE
  | El_function_definition _ => ID_MDL_FUNCTION_DEFINITION
  | El_material_definition _ => ID_MDL_MATERIAL_DEFINITION
  | El_function_call _ => ID_MDL_FUNCTION_CALL
  | El_material_instance _ => ID_MDL_MATERIAL_INSTANCE
  | El_other id => ID_OTHER id
  end.

(** ** The transaction *)

(** Modelled from the spec: [DB::Transaction], whose sources are absent, as
    the Registry of section 6: [name_to_tag], [get_class_id], [reserve_tag],
    [store] and [store_for_reference_counting].  Both stores bind the name to
    the tag and keep the element; the second also marks the tag as held for
    reference counting only.  [next_tag] is the tag that [reserve_tag] hands
    out next; it is positive, so a reserved tag is never the invalid tag. *)
Record Transaction : Type := mkTransaction {
  names : gmap string Tag;
  elements : gmap Tag Element;
  reference_counted : gset Tag;
  next_tag : positive
}.

Definition name_to_tag (db : Transaction) (name : string) : Tag :=
  default 0%N (names db !! name).

Definition get_class_id (db : Transaction) (tag : Tag) : Class_id :=
  match elements db !! tag with
  | Some el => class_of el
  | None => ID_OTHER 0
  end.

Definition reserve_tag (db : Transaction) : Tag * Transaction :=
  (Npos (next_tag db),
   mkTransaction (names db) (elements db) (reference_counted db)
     (Pos.succ (next_tag db))).

(** [transaction->store( tag, element, name, privacy_level)] *)
Definition store_at (db : Transaction) (tag : Tag) (el : Element)
    (name : string) : Transaction :=
  mkTransaction (<[name := tag]> (names db)) (<[tag := el]> (elements db))
    (reference_counted db) (next_tag db).

(** [transaction->store_for_reference_counting( tag, element, name, ...)] *)
Definition store_for_reference_counting (db : Transaction) (tag : Tag)
    (el : Element) (name : string) : Transaction :=
  mkTransaction (<[name := tag]> (names db)) (<[tag := el]> (elements db))
    ({[ tag ]} ∪ reference_counted db) (next_tag db).

(** [transaction->store( element, name, privacy_level)]: a fresh tag. *)
Definition store (db : Transaction) (el : Element) (name : string)
  : Tag * Transaction :=
  let '(tag, db1) := reserve_tag db in
  (tag, store_at db1 tag el name).

(** [DB::Access<T> a( tag, transaction)] *)
Definition access_module (db : Transaction) (tag : Tag) : res Mdl_module :=
  match elements db !! tag with
  | Some (El_module m) => Ok m
  | _ => Undefined
  end.

Definition access_function_definition (db : Transaction) (tag : Tag)
  : res Mdl_definition :=
  match elements db !! tag with
  | Some (El_function_definition d) => Ok d
  | _ => Undefined
  end.

Definition access_material_definition (db : Transaction) (tag : Tag)
  : res Mdl_definition :=
  match elements db !! tag with
  | Some (El_material_definition d) => Ok d
  | _ => Undefined
  end.

Definition access_function_call (db : Transaction) (tag : Tag)
  : res Mdl_function_call :=
  match elements db !! tag with
  | Some (El_function_call c) => Ok c
  | _ => Undefined
  end.

Definition access_material_instance (db : Transaction) (tag : Tag)
  : res Mdl_material_instance :=
  match elements db !! tag with
  | Some (El_material_instance i) => Ok i
  | _ => Undefined
  end.

(** [add_mdl_db_prefix]: the DB name of an MDL name. *)
Definition add_mdl_db_prefix (name : string) : string := "mdl" ++ name.

(** ** [find_path] *)

(** The path cut at every ['.']: the first segment and the later ones.
    [find_path] walks the same segments with [find] and [substr]. *)
Fixpoint split_path (path : string) : string * list string :=
  match path with
  | EmptyString => (EmptyString, [])
  | String c rest =>
      let '(seg, segs) := split_path rest in
      if Ascii.eqb c "."%char then (EmptyString, seg :: segs)
      else (String c seg, segs)
  end.

(** One turn of the loop of [find_path] for each remaining segment. *)
Fixpoint find_path_from (db : Transaction) (segs : list string)
    (expr : IExpression) : option IExpression :=
  match segs with
  | [] => Some expr
  | arg :: segs' =>
      let next :=
        match expr with
        | Expr_call _ _ tag =>
            match elements db !! tag with
            | Some (El_function_call fcall) =>
                get_by_name (fc_arguments fcall) arg
            | Some (El_material_instance mat) =>
                get_by_name (mi_arguments mat) arg
            | _ => None
            end
        | Expr_direct_call _ _ _ args => get_by_name args arg
        | _ => None
        end in
      match next with
      | Some expr' => find_path_from db segs' expr'
      | None => None
      end
  end.

Definition find_path (db : Transaction) (path : string)
    (args : IExpression_list) : option IExpression :=
  let '(param, segs) := split_path path in
  match get_by_name args param with
  | Some expr => find_path_from db segs expr
  | None => None
  end.

(** ** [is_uniform_function] *)

Definition is_uniform_function (db : Transaction) (fdef : Mdl_definition)
  : res bool :=
  module ← access_module db (def_module fdef);
  match def_semantic fdef with
  | DS_INTRINSIC_DAG_FIELD_ACCESS => Ok true
  | DS_INTRINSIC_DAG_ARRAY_CONSTRUCTOR
  | DS_INTRINSIC_DAG_INDEX_ACCESS
  | DS_INTRINSIC_DAG_ARRAY_LENGTH
  | DS_INTRINSIC_DAG_SET_OBJECT_ID
  | DS_INTRINSIC_DAG_SET_TRANSFORMS => Ok true
  | sema =>
      if semantic_is_operator sema then Ok true
      else
        match find_signature (m_module module) (def_mdl_name fdef) with
        | Some is_varying => Ok (negb is_varying)
        | None => Ok false
        end
  end.

(** ** [can_enforce_uniform] *)

Record Entry : Type := mkEntry {
  m_expr : IExpression;
  m_is_uniform : bool
}.

(** What the [switch] does with one popped entry: [return false], or go on
    with the entries it pushed. *)
Inductive Verdict : Type :=
| Conflict
| Expand (pushed : list Entry).

(** The value of [auto_must_be_uniform], or [None] for the [return false] of
    a function that is not uniform. *)
Definition auto_must_be_uniform (db : Transaction) (is_uniform : bool)
    (ret_tp : IType) (def : Mdl_definition) : res (option bool) :=
  if is_uniform then
    if has_modifier (type_modifiers ret_tp) MK_UNIFORM then Ok (Some false)
    else
      uniform_function ← is_uniform_function db def;
      if negb uniform_function then Ok None else Ok (Some true)
  else Ok (Some false).

(** The loop "push ALL arguments to the queue", from index [i] on.
    [is_ternary] is the flag of the [EK_CALL] case; the loop of the
    [EK_DIRECT_CALL] case has no such flag and runs with [false]. *)
Fixpoint push_arguments (def : Mdl_definition) (is_ternary auto : bool)
    (args : IExpression_list) (i : nat) : res (list Entry) :=
  match args with
  | [] => Ok []
  | (_, expr) :: args' =>
      p_type ← of_option (get_by_index (def_parameter_types def) i);
      let mods := type_modifiers p_type in
      let p_is_uniform := has_modifier mods MK_UNIFORM in
      let p_is_varying := has_modifier mods MK_VARYING in
      let forced := is_ternary && Nat.eqb i 0 in
      let p_is_uniform := if forced then true else p_is_uniform in
      let p_is_varying := if forced then false else p_is_varying in
      rest ← push_arguments def is_ternary auto args' (S i);
      Ok (mkEntry expr (negb p_is_varying && (auto || p_is_uniform)) :: rest)
  end.

Definition process_entry (db : Transaction) (e : Entry) : res Verdict :=
  let is_uniform := m_is_uniform e in
  match m_expr e with
  | Expr_constant _ _ => Ok (Expand [])
  | Expr_call _ ret_tp tag =>
      match get_class_id db tag with
      | ID_MDL_MATERIAL_INSTANCE =>
          if is_uniform then Ok Conflict else Ok (Expand [])
      | ID_MDL_FUNCTION_CALL =>
          fcall ← access_function_call db tag;
          def ← access_function_definition db (fc_function_definition fcall);
          auto ← auto_must_be_uniform db is_uniform ret_tp def;
          match auto with
          | None => Ok Conflict
          | Some auto =>
              let is_ternary :=
                is_ternary_semantic (def_semantic def) in
              pushed ← push_arguments def is_ternary auto
                         (fc_arguments fcall) 0;
              Ok (Expand pushed)
          end
      | _ => Ok Conflict
      end
  | Expr_parameter _ _ _ => Ok Conflict
  | Expr_direct_call _ ret_tp tag args =>
      match get_class_id db tag with
      | ID_MDL_MATERIAL_DEFINITION => Ok Conflict
      | ID_MDL_FUNCTION_DEFINITION =>
          def ← access_function_definition db tag;
          auto ← auto_must_be_uniform db is_uniform ret_tp def;
          match auto with
          | None => Ok Conflict
          | Some auto =>
              pushed ← push_arguments def false auto args 0;
              Ok (Expand pushed)
          end
      | _ => Ok Conflict
      end
  | Expr_temporary _ _ _ => Ok Conflict
  end.

(** [is_uniform && expr == p_expr] *)
Definition hits_target (p_expr : IExpression) (e : Entry) : bool :=
  m_is_uniform e && same_handle (m_expr e) p_expr.

(** The [while (!queue.empty())] loop.  The result is the returned [bool]
    and the value left in [must_be_uniform].  [fuel] bounds the number of
    entries popped. *)
Fixpoint analyze (fuel : nat) (db : Transaction) (p_expr : IExpression)
    (queue : list Entry) (must_be_uniform : bool) : res (bool * bool) :=
  match queue with
  | [] => Ok (true, must_be_uniform)
  | e :: queue' =>
      match fuel with
      | O => Timeout
      | S fuel' =>
          let must_be_uniform := must_be_uniform || hits_target p_expr e in
          verdict ← process_entry db e;
          match verdict with
          | Conflict => Ok (false, must_be_uniform)
          | Expand pushed =>
              analyze fuel' db p_expr (queue' ++ pushed) must_be_uniform
          end
      end
  end.

(** The entries the loop pops, in order. *)
Fixpoint popped (fuel : nat) (db : Transaction) (queue : list Entry)
  : list Entry :=
  match queue with
  | [] => []
  | e :: queue' =>
      match fuel with
      | O => []
      | S fuel' =>
          e :: match process_entry db e with
               | Ok (Expand pushed) => popped fuel' db (queue' ++ pushed)
               | _ => []
               end
      end
  end.

(** The entry the queue is seeded with: the argument and the declared
    qualifier of the top-level parameter the path starts with. *)
Definition seed (args : IExpression_list) (param_types : IType_list)
    (path : string) : res Entry :=
  let param := fst (split_path path) in
  expr ← of_option (get_by_name args param);
  p_type ← of_option (get_by_name param_types param);
  Ok (mkEntry expr (has_modifier (type_modifiers p_type) MK_UNIFORM)).

Definition can_enforce_uniform (fuel : nat) (db : Transaction)
    (args : IExpression_list) (param_types : IType_list) (path : string)
    (p_expr : IExpression) : res (bool * bool) :=
  first ← seed args param_types path;
  analyze fuel db p_expr [first] false.

(** ** [is_valid_module_name] *)

(** The name cut at every ["::"], leftmost first, as the [strstr] loop cuts
    it. *)
Fixpoint split_scope (name : string) : string * list string :=
  match name with
  | EmptyString => (EmptyString, [])
  | String c rest =>
      match rest with
      | EmptyString => (String c EmptyString, [])
      | String c' rest' =>
          if Ascii.eqb c ":"%char && Ascii.eqb c' ":"%char then
            let '(ident, idents) := split_scope rest' in
            (EmptyString, ident :: idents)
          else
            let '(ident, idents) := split_scope rest in
            (String c ident, idents)
      end
  end.

Definition skip_leading_scope (name : string) : string :=
  match name with
  | String c (String c' rest) =>
      if Ascii.eqb c ":"%char && Ascii.eqb c' ":"%char then rest else name
  | _ => name
  end.

Section Module_names.

(** [IMDL::is_valid_mdl_identifier], the compiler's rule for one
    identifier. *)
Variable is_valid_mdl_identifier : string -> bool.

Definition is_valid_module_name (name : string) : bool :=
  let '(ident, idents) := split_scope (skip_leading_scope name) in
  forallb is_valid_mdl_identifier (ident :: idents).

End Module_names.

(** ** [create_module_internal] *)

Definition tag_is_set (tag : Tag) : bool := negb (N.eqb tag 0).

(** The two loops "Compute DB names of the ... definitions": [true] when
    they reach a name that is in use and [return -3]. *)
Fixpoint name_in_use (db : Transaction) (entities : list Dag_entity) : bool :=
  match entities with
  | [] => false
  | entity :: entities' =>
      let db_name := add_mdl_db_prefix (dag_name entity) in
      if tag_is_set (name_to_tag db db_name) then true
      else name_in_use db entities'
  end.

Definition db_names (entities : list Dag_entity) : list string :=
  map (fun entity => add_mdl_db_prefix (dag_name entity)) entities.

(** Modelled from the spec: the constructors of [Mdl_function_definition]
    and [Mdl_material_definition], whose sources are absent.  The definition
    is owned by its module, has the pre-reserved tag, and takes name,
    exported flag, semantics and signature from its entity of the generated
    code. *)
Definition new_definition (db_module_tag tag : Tag) (entity : Dag_entity)
  : Mdl_definition :=
  mkDefinition db_module_tag tag (dag_name entity) (dag_exported entity)
    (dag_semantic entity) (dag_parameters entity) (dag_return_type entity)
    0%N [].

(** The loops "Create DB elements for the ... definitions". *)
Fixpoint store_definitions (wrap : Mdl_definition -> Element)
    (db : Transaction) (db_module_tag : Tag) (entities : list Dag_entity)
  : Transaction :=
  match entities with
  | [] => db
  | entity :: entities' =>
      let '(tag, db1) := reserve_tag db in
      let definition := new_definition db_module_tag tag entity in
      let db_name := add_mdl_db_prefix (dag_name entity) in
      let db2 :=
        if def_exported definition
        then store_at db1 tag (wrap definition) db_name
        else store_for_reference_counting db1 tag (wrap definition) db_name in
      store_definitions wrap db2 db_module_tag entities'
  end.

(** "Store the module in the DB" and its definitions: the part of
    [create_module_internal] after the name checks. *)
Definition register_module (db : Transaction) (module : IModule)
    (code_dag : Generated_code_dag) (imports : list Tag)
  : Transaction * Tag :=
  let db_module :=
    mkMdlModule module code_dag (mod_name module) (mod_filename module)
      imports (db_names (dag_functions code_dag))
      (db_names (dag_materials code_dag)) in
  let '(db_module_tag, db1) :=
    store db (El_module db_module) (add_mdl_db_prefix (mod_name module)) in
  let db2 :=
    store_definitions El_function_definition db1 db_module_tag
      (dag_functions code_dag) in
  let db3 :=
    store_definitions El_material_definition db2 db_module_tag
      (dag_materials code_dag) in
  (db3, db_module_tag).

Section Module_creation.

(** [update_resource_literals]: resolves the resource literals of the
    generated code and may store resource elements on the way. *)
Variable update_resource_literals :
  Transaction -> Generated_code_dag -> IModule -> Transaction.

(** The result is the status, the transaction afterwards and the value
    left in [*module_tag].  The inner loop is "Collect tags of imported
    modules, create DB elements on the fly if necessary". *)
Fixpoint create_module_internal (db : Transaction) (module : IModule)
  : Z * Transaction * Tag :=
  match module with
  | mkModule name filename is_valid version imports restore compile sigs =>
      if negb is_valid then (-2, db, 0%N)
      else
        let db_module_name := add_mdl_db_prefix name in
        let db_module_tag := name_to_tag db db_module_name in
        if tag_is_set db_module_tag then
          if negb (class_id_eqb (get_class_id db db_module_tag)
                     ID_MDL_MODULE)
          then (-3, db, 0%N)
          else (1, db, db_module_tag)
        else if negb restore then (-4, db, 0%N)
        else
          match compile with
          | None => (-2, db, 0%N)
          | Some code_dag =>
              if (0 <? error_message_count code_dag)%nat
              then (-2, db, 0%N)
              else
                let db0 := update_resource_literals db code_dag module in
                let collected :=
                  (fix collect (db : Transaction) (todo : list IModule)
                       (done : list Tag)
                     : Z * Transaction * list Tag :=
                     match todo with
                     | [] => (0, db, done)
                     | import :: todo' =>
                         let import_tag :=
                           name_to_tag db
                             (add_mdl_db_prefix (mod_name import)) in
                         if tag_is_set import_tag then
                           if negb (class_id_eqb
                                      (get_class_id db import_tag)
                                      ID_MDL_MODULE)
                           then (-3, db, done)
                           else collect db todo' (done ++ [import_tag])%list
                         else
                           let '(result, db1, import_tag) :=
                             create_module_internal db import in
                           if result <? 0 then (-4, db1, done)
                           else collect db1 todo' (done ++ [import_tag])%list
                     end) db0 imports [] in
                let '(status, db1, import_tags) := collected in
                if status <? 0 then (status, db1, 0%N)
                else if name_in_use db1 (dag_functions code_dag)
                then (-3, db1, 0%N)
                else if name_in_use db1 (dag_materials code_dag)
                then (-3, db1, 0%N)
                else
                  let '(db2, tag) :=
                    register_module db1 module code_dag import_tags in
                  (0, db2, tag)
          end
  end.

(** The import loop on its own. *)
Fixpoint collect_imports (db : Transaction) (todo : list IModule)
    (done : list Tag) : Z * Transaction * list Tag :=
  match todo with
  | [] => (0, db, done)
  | import :: todo' =>
      let import_tag :=
        name_to_tag db (add_mdl_db_prefix (mod_name import)) in
      if tag_is_set import_tag then
        if negb (class_id_eqb (get_class_id db import_tag) ID_MDL_MODULE)
        then (-3, db, done)
        else collect_imports db todo' (done ++ [import_tag])%list
      else
        let '(result, db1, import_tag) :=
          create_module_internal db import in
        if result <? 0 then (-4, db1, done)
        else collect_imports db1 todo' (done ++ [import_tag])%list
  end.

(** The transaction as it is when the name checks start. *)
Definition before_name_checks (db : Transaction) (module : IModule)
    (code_dag : Generated_code_dag) : Z * Transaction * list Tag :=
  collect_imports (update_resource_literals db code_dag module)
    (mod_imports module) [].

(** *** [create_module], by name and from a stream *)

Variable is_valid_mdl_identifier : string -> bool.

(** [IMDL::load_module] with the transaction's module cache, and
    [IMDL::load_module_from_stream]; [None] is the invalid handle. *)
Variable load_module : Transaction -> string -> option IModule.
Variable load_module_from_stream :
  Transaction -> string -> list ascii -> option IModule.

(** "Check whether the module exists already in the DB": the status to
    return, if the name is taken. *)
Definition check_existing (db : Transaction) (module_name : string)
  : option Z :=
  let db_module_name := add_mdl_db_prefix module_name in
  let db_module_tag := name_to_tag db db_module_name in
  if tag_is_set db_module_tag then
    if negb (class_id_eqb (get_class_id db db_module_tag) ID_MDL_MODULE)
    then Some (-3)
    else Some 1
  else None.

Definition create_module (db : Transaction) (module_name : string)
  : Z * Transaction :=
  if negb (is_valid_module_name is_valid_mdl_identifier module_name)
  then (-1, db)
  else
    match check_existing db module_name with
    | Some status => (status, db)
    | None =>
        match load_module db module_name with
        | None => (-2, db)
        | Some module =>
            let '(result, db1, _) := create_module_internal db module in
            (result, db1)
        end
    end.

Definition create_module_from_source (db : Transaction)
    (module_name : string) (module_source : list ascii)
  : Z * Transaction :=
  if negb (is_valid_module_name is_valid_mdl_identifier module_name)
     && negb (String.eqb module_name "::<neuray>")
  then (-1, db)
  else
    match check_existing db module_name with
    | Some status => (status, db)
    | None =>
        match load_module_from_stream db module_name module_source with
        | None => (-2, db)
        | Some module =>
            let '(result, db1, _) := create_module_internal db module in
            (result, db1)
        end
    end.

End Module_creation.

(** ** The module under construction *)

Inductive Qualifier : Type := FQ_NONE | FQ_VARYING | FQ_UNIFORM.

(** What a type name was made from, and its frequency qualifier. *)
Inductive Type_name_source : Type :=
| Tn_named (qualified_name : string)
| Tn_of_type (type : IType).

Record Type_name : Type := mkTypeName {
  tn_source : Type_name_source;
  tn_qualifier : Qualifier
}.

Definition set_qualifier (tn : Type_name) (q : Qualifier) : Type_name :=
  mkTypeName (tn_source tn) q.

(** The expressions the synthesis builds.  [Ast_converted] is an expression
    that a conversion service returned. *)
Inductive Ast_expression : Type :=
| Ast_reference (name : string)
| Ast_converted (origin : IExpression) (as_type : option IType)
| Ast_call (callee : Ast_expression)
    (arguments : list (string * Ast_expression))
| Ast_let (declarations : list (Type_name * string * Ast_expression))
    (body : Ast_expression).

Record Ast_annotation : Type := mkAstAnnotation {
  ast_anno_name : string;
  ast_anno_arguments : IExpression_list
}.

Record Ast_parameter : Type := mkAstParameter {
  par_type_name : Type_name;
  par_name : string;
  par_init : Ast_expression;
  par_annotations : option (list Ast_annotation)
}.

Record Declaration_function : Type := mkDeclaration {
  decl_return_type : Type_name;
  decl_name : string;
  decl_is_clone : bool;
  decl_body : Ast_expression;
  decl_annotations : option (list Ast_annotation);
  decl_is_exported : bool;
  decl_parameters : list Ast_parameter
}.

Inductive MDL_version : Type :=
| MDL_VERSION_1_0 | MDL_VERSION_1_1 | MDL_VERSION_1_2 | MDL_VERSION_1_3
| MDL_VERSION_1_4.

(** What [collect_imports] and [add_names] were called with. *)
Inductive Import_source : Type :=
| Import_of_expression (e : Ast_expression)
| Import_of_annotations (block : list Ast_annotation)
| Import_of_used_user_types (declared : list (string * IExpression)).

Definition Symbol_importer : Type := list Import_source.

(** The [mi::mdl::IModule] being built: [create_module] makes it empty,
    [add_declaration] appends, [add_imports] hands over the importer's
    collection. *)
Record Mutable_module : Type := mkMutableModule {
  mm_name : string;
  mm_version : MDL_version;
  mm_declarations : list Declaration_function;
  mm_imports : Symbol_importer
}.

Definition mdl_create_module (module_name : string) (version : MDL_version)
  : Mutable_module :=
  mkMutableModule module_name version [] [].

Definition add_declaration (module : Mutable_module)
    (decl : Declaration_function) : Mutable_module :=
  mkMutableModule (mm_name module) (mm_version module)
    (mm_declarations module ++ [decl])%list (mm_imports module).

Definition add_imports (importer : Symbol_importer) (module : Mutable_module)
  : Mutable_module :=
  mkMutableModule (mm_name module) (mm_version module)
    (mm_declarations module) importer.

(** ** Requests *)

Record IAnnotation : Type := mkAnnotation {
  anno_name : string;
  anno_arguments : IExpression_list
}.

Definition IAnnotation_block : Type := list IAnnotation.

Record Variant_data : Type := mkVariantData {
  vd_prototype_tag : Tag;
  vd_variant_name : string;
  vd_defaults : option IExpression_list;
  vd_annotations : option IAnnotation_block
}.

Record Parameter_data : Type := mkParameterData {
  pd_path : string;
  pd_name : string;
  pd_enforce_uniform : bool;
  pd_annotations : option IAnnotation_block
}.

Record Material_data : Type := mkMaterialData {
  md_material_name : string;
  md_parameters : list Parameter_data;
  md_annotations : option IAnnotation_block
}.

(** [ICall]: a function call or a material instance seen through one
    interface.  [get_arguments] may return no list. *)
Record ICall : Type := mkCall {
  get_abs_name : string;
  get_arguments : option IExpression_list;
  get_parameter_types : IType_list
}.

Definition Function_call (call : Mdl_function_call) : ICall :=
  mkCall "material" (Some (fc_arguments call)) (fc_parameter_types call).

Definition Material_call (inst : Mdl_material_instance) : ICall :=
  mkCall (mi_mdl_material_definition inst) (Some (mi_arguments inst))
    (mi_parameter_types inst).

Record New_parameter : Type := mkNewParameter {
  np_sym : string;
  np_init : IExpression;
  np_annos : option IAnnotation_block;
  np_is_uniform : bool
}.

(** ** Detecting the MDL version of a variant module *)

(** One turn of the loop "Detect the MDL version we need". *)
Definition raise_version (max : Z * Z) (version : Z * Z) : Z * Z :=
  let '(max_major, max_minor) := max in
  let '(major, minor) := version in
  if major >? max_major then (major, minor)
  else if (major =? max_major) && (minor >? max_minor)
  then (max_major, minor)
  else (max_major, max_minor).

(** The version of the module that defines the prototype, or [None] when
    the prototype is neither a material nor a function definition. *)
Definition prototype_version (db : Transaction) (pd : Variant_data)
  : res (option (Z * Z)) :=
  module_tag ←
    match get_class_id db (vd_prototype_tag pd) with
    | ID_MDL_MATERIAL_DEFINITION =>
        prototype ← access_material_definition db (vd_prototype_tag pd);
        Ok (Some (def_module prototype))
    | ID_MDL_FUNCTION_DEFINITION =>
        prototype ← access_function_definition db (vd_prototype_tag pd);
        Ok (Some (def_module prototype))
    | _ => Ok None
    end;
  match module_tag with
  | None => Ok None
  | Some module_tag =>
      module ← access_module db module_tag;
      Ok (Some (mod_version (m_module module)))
  end.

(** The loop: [inl (-5)] is its [return -5]. *)
Fixpoint detect_version (db : Transaction) (variant_data : list Variant_data)
    (max : Z * Z) : res (Z + Z * Z) :=
  match variant_data with
  | [] => Ok (inr max)
  | pd :: variant_data' =>
      version ← prototype_version db pd;
      match version with
      | None => Ok (inl (-5))
      | Some version =>
          detect_version db variant_data' (raise_version max version)
      end
  end.

Section Versions.

(** [IMDL::MDL_LATEST_VERSION], an alias of one of the versions. *)
Variable MDL_LATEST_VERSION : MDL_version.

(** The [switch] on [max_major] and [max_minor]. *)
Definition mdl_version_of (max : Z * Z) : MDL_version :=
  let '(max_major, max_minor) := max in
  if max_major =? 1 then
    if max_minor =? 0 then MDL_VERSION_1_0
    else if max_minor =? 1 then MDL_VERSION_1_1
    else if max_minor =? 2 then MDL_VERSION_1_2
    else if max_minor =? 3 then MDL_VERSION_1_3
    else if max_minor =? 4 then MDL_VERSION_1_4
    else MDL_LATEST_VERSION
  else MDL_LATEST_VERSION.

(** The version the empty module is created with. *)
Definition variant_module_version (db : Transaction)
    (variant_data : list Variant_data) : res (Z + MDL_version) :=
  max ← detect_version db variant_data (1, 0);
  match max with
  | inl status => Ok (inl status)
  | inr max => Ok (inr (mdl_version_of max))
  end.

End Versions.

(** ** Synthesis of variants and materials *)

Definition is_resource_kind (kind : Type_kind) : bool :=
  match kind with
  | TK_TEXTURE | TK_BSDF_MEASUREMENT | TK_LIGHT_PROFILE => true
  | _ => false
  end.

Section Synthesis.

(** Services of the type factory, the AST builder and the converters, none
    of them among the sources. *)
Variable argument_type_matches_parameter_type : IType -> IType -> bool.
Variable int_expr_to_mdl_ast_expr :
  Transaction -> IType -> IExpression -> option Ast_expression.
Variable create_type_name : IType -> Type_name.
Variable transform_expr :
  list (string * IExpression) -> IExpression -> Ast_expression.
Variable get_temporary_symbol : nat -> string.

(** [add_annotation] with the block it appends to; the result is its
    status and the block afterwards.  It is taken as a service as well: how
    it resolves the name of an annotation and converts the arguments has no
    part in the functions below beyond its status. *)
Variable add_annotation :
  Transaction -> list Ast_annotation -> string -> IExpression_list ->
  Z * list Ast_annotation.

Fixpoint add_annotations (db : Transaction)
    (mdl_annotation_block : list Ast_annotation)
    (annotations : IAnnotation_block) : Z * list Ast_annotation :=
  match annotations with
  | [] => (0, mdl_annotation_block)
  | anno :: annotations' =>
      let '(result, block) :=
        add_annotation db mdl_annotation_block (anno_name anno)
          (anno_arguments anno) in
      if negb (result =? 0) then (result, block)
      else add_annotations db block annotations'
  end.

Definition create_annotations (db : Transaction)
    (annotation_block : option IAnnotation_block)
    (symbol_importer : Symbol_importer)
  : Z * Symbol_importer * option (list Ast_annotation) :=
  match annotation_block with
  | None => (0, symbol_importer, None)
  | Some annotations =>
      let '(result, block) := add_annotations db [] annotations in
      if negb (result =? 0) then (result, symbol_importer, Some block)
      else
        (0, (symbol_importer ++ [Import_of_annotations block])%list,
         Some block)
  end.

(** *** [add_variant] *)

(** The loop "check that the provided arguments are parameters of the
    material definition and that their types match the expected types":
    the status it returns with, if it does. *)
Fixpoint check_defaults (expected_types : IType_list)
    (defaults : IExpression_list) : option Z :=
  match defaults with
  | [] => None
  | (name, default_) :: defaults' =>
      match get_by_name expected_types name with
      | None => Some (-6)
      | Some expected_type =>
          if negb (argument_type_matches_parameter_type
                     (get_type default_) expected_type)
          then Some (-7)
          else check_defaults expected_types defaults'
      end
  end.

(** The loop "create defaults for variant" over the parameters of the
    prototype; no argument list is its [return -8].  The importer is the one
    the loop leaves behind. *)
Fixpoint variant_arguments (db : Transaction) (parameters : IType_list)
    (defaults : IExpression_list) (symbol_importer : Symbol_importer)
  : option (list (string * Ast_expression)) * Symbol_importer :=
  match parameters with
  | [] => (Some [], symbol_importer)
  | (arg_name, arg_type) :: parameters' =>
      match get_by_name defaults arg_name with
      | None => variant_arguments db parameters' defaults symbol_importer
      | Some default_ =>
          match int_expr_to_mdl_ast_expr db arg_type default_ with
          | None => (None, symbol_importer)
          | Some arg_expr =>
              let '(arguments, importer) :=
                variant_arguments db parameters' defaults
                  (symbol_importer ++ [Import_of_expression arg_expr])%list in
              (cons (arg_name, arg_expr) <$> arguments, importer)
          end
      end
  end.

Definition access_prototype (is_material : bool) (db : Transaction)
    (tag : Tag) : res Mdl_definition :=
  if is_material then access_material_definition db tag
  else access_function_definition db tag.

Definition create_return_type_name (is_material : bool)
    (prototype : Mdl_definition) : Type_name :=
  if is_material then mkTypeName (Tn_named "material") FQ_NONE
  else create_type_name (def_return_type prototype).

(** [is_material] selects the instance of the template.  The result is
    the status, the importer and the module afterwards. *)
Definition add_variant (is_material : bool)
    (symbol_importer : Symbol_importer) (db : Transaction)
    (module : Mutable_module) (prototype : Mdl_definition)
    (variant_name : string) (defaults : option IExpression_list)
    (annotation_block : option IAnnotation_block)
  : res (Z * Symbol_importer * Mutable_module) :=
  prototype ←
    (if tag_is_set (def_prototype prototype)
     then access_prototype is_material db (def_prototype prototype)
     else Ok prototype);
  let expected_types := def_parameter_types prototype in
  match check_defaults expected_types (default [] defaults) with
  | Some status => Ok (status, symbol_importer, module)
  | None =>
      let prototype_ref := Ast_reference (def_mdl_name prototype) in
      let '(arguments, importer1) :=
        match defaults with
        | Some defaults =>
            variant_arguments db expected_types defaults symbol_importer
        | None => (Some [], symbol_importer)
        end in
      match arguments with
      | None => Ok (-8, importer1, module)
      | Some arguments =>
          let variant_call := Ast_call prototype_ref arguments in
          let '(result, importer2, mdl_annotation_block) :=
            create_annotations db annotation_block importer1 in
          if negb (result =? 0) then Ok (result, importer2, module)
          else
            let importer3 :=
              (importer2 ++ [Import_of_expression variant_call])%list in
            let variant_declaration :=
              mkDeclaration
                (create_return_type_name is_material prototype)
                variant_name true variant_call mdl_annotation_block true
                [] in
            Ok (0, importer3, add_declaration module variant_declaration)
      end
  end.

(** *** [add_material] *)

(** The loop "traverse the parameter paths AND collect the types";
    [inl] is the status it returns with. *)
Fixpoint new_parameters (fuel : nat) (db : Transaction)
    (args : IExpression_list) (param_types : IType_list)
    (parameters : list Parameter_data) : res (Z + list New_parameter) :=
  match parameters with
  | [] => Ok (inr [])
  | pd :: parameters' =>
      match find_path db (pd_path pd) args with
      | None => Ok (inl (-13))
      | Some expr =>
          verdict ←
            can_enforce_uniform fuel db args param_types (pd_path pd) expr;
          let '(possible, must_be_uniform) := verdict in
          if negb possible then Ok (inl (-15))
          else
            rest ← new_parameters fuel db args param_types parameters';
            match rest with
            | inl status => Ok (inl status)
            | inr new_params =>
                Ok (inr (mkNewParameter (pd_name pd) expr
                           (pd_annotations pd)
                           (must_be_uniform || pd_enforce_uniform pd)
                         :: new_params))
            end
      end
  end.

(** The type name of a new parameter, as the loop "add parameter" leaves
    it. *)
Definition parameter_type_name (pd : New_parameter) : Type_name :=
  let ptype := get_type (np_init pd) in
  let tn := create_type_name ptype in
  let tn := if np_is_uniform pd then set_qualifier tn FQ_UNIFORM else tn in
  if is_resource_kind (type_kind ptype) then set_qualifier tn FQ_UNIFORM
  else tn.

(** The loop "add parameter": the status is nonzero when it returns
    early. *)
Fixpoint build_parameters (db : Transaction)
    (symbol_importer : Symbol_importer) (new_params : list New_parameter)
  : Z * Symbol_importer * list Ast_parameter :=
  match new_params with
  | [] => (0, symbol_importer, [])
  | pd :: new_params' =>
      let tn := parameter_type_name pd in
      let init := transform_expr [] (np_init pd) in
      let '(result, importer1, p_annos) :=
        create_annotations db (np_annos pd) symbol_importer in
      if negb (result =? 0) then (result, importer1, [])
      else
        let param := mkAstParameter tn (np_sym pd) init p_annos in
        let importer2 := (importer1 ++ [Import_of_expression init])%list in
        let '(status, importer3, params) :=
          build_parameters db importer2 new_params' in
        (status, importer3, param :: params)
  end.

(** The temporaries of the let expression and the named arguments of the
    call, one of each for every argument of the callee, from index [i]. *)
Fixpoint bind_arguments (declared : list (string * IExpression))
    (args : IExpression_list) (i : nat)
  : list (Type_name * string * Ast_expression)
    * list (string * Ast_expression) :=
  match args with
  | [] => ([], [])
  | (pname, arg) :: args' =>
      let tn := create_type_name (get_type arg) in
      let init := transform_expr declared arg in
      let tmp_sym := get_temporary_symbol i in
      let '(declarations, arguments) :=
        bind_arguments declared args' (S i) in
      ((tn, tmp_sym, init) :: declarations,
       (pname, Ast_reference tmp_sym) :: arguments)
  end.

Definition add_material (fuel : nat) (symbol_importer : Symbol_importer)
    (db : Transaction) (module : Mutable_module) (callee : ICall)
    (md : Material_data)
  : res (Z * Symbol_importer * Mutable_module) :=
  match get_arguments callee, md_parameters md with
  | None, _ :: _ => Ok (-6, symbol_importer, module)
  | args, parameters =>
      collected ←
        match args with
        | Some args =>
            new_parameters fuel db args (get_parameter_types callee)
              parameters
        | None => Ok (inr [])
        end;
      match collected with
      | inl status => Ok (status, symbol_importer, module)
      | inr new_params =>
          let '(result, importer1, mdl_annotation_block) :=
            create_annotations db (md_annotations md) symbol_importer in
          if negb (result =? 0) then Ok (result, importer1, module)
          else
            args ← of_option args;
            let declared :=
              map (fun pd => (np_sym pd, np_init pd)) new_params in
            let callee_ref := Ast_reference (get_abs_name callee) in
            let res_expr :=
              if (0 <? List.length args)%nat then
                let '(declarations, arguments) :=
                  bind_arguments declared args 0 in
                Ast_let declarations (Ast_call callee_ref arguments)
              else Ast_call callee_ref [] in
            let importer2 :=
              (importer1 ++ [Import_of_expression res_expr])%list in
            let '(status, importer3, params) :=
              build_parameters db importer2 new_params in
            if negb (status =? 0) then Ok (status, importer3, module)
            else
              let fdecl :=
                mkDeclaration (mkTypeName (Tn_named "material") FQ_NONE)
                  (md_material_name md) false res_expr
                  mdl_annotation_block true params in
              let importer4 :=
                (importer3 ++ [Import_of_used_user_types declared])%list in
              Ok (0, importer4, add_declaration module fdecl)
      end
  end.

(** *** [create_module] from variants *)

Variable MDL_LATEST_VERSION : MDL_version.
Variable is_valid_mdl_identifier : string -> bool.
Variable update_resource_literals :
  Transaction -> Generated_code_dag -> IModule -> Transaction.

(** [IModule::analyze]: the compiler's view of the assembled module. *)
Variable analyze_module : Mutable_module -> IModule.

(** The loop "Add variants to module"; a nonzero status is its early
    return. *)
Fixpoint add_variants (symbol_importer : Symbol_importer)
    (db : Transaction) (module : Mutable_module)
    (variant_data : list Variant_data)
  : res (Z * Symbol_importer * Mutable_module) :=
  match variant_data with
  | [] => Ok (0, symbol_importer, module)
  | pd :: variant_data' =>
      added ←
        match get_class_id db (vd_prototype_tag pd) with
        | ID_MDL_MATERIAL_DEFINITION =>
            prototype ←
              access_material_definition db (vd_prototype_tag pd);
            add_variant true symbol_importer db module prototype
              (vd_variant_name pd) (vd_defaults pd) (vd_annotations pd)
        | ID_MDL_FUNCTION_DEFINITION =>
            prototype ←
              access_function_definition db (vd_prototype_tag pd);
            add_variant false symbol_importer db module prototype
              (vd_variant_name pd) (vd_defaults pd) (vd_annotations pd)
        | _ => Ok (-5, symbol_importer, module)
        end;
      let '(result, importer1, module1) := added in
      if negb (result =? 0) then Ok (result, importer1, module1)
      else add_variants importer1 db module1 variant_data'
  end.

Definition create_module_from_variants (db : Transaction)
    (module_name : string) (variant_data : list Variant_data)
  : res (Z * Transaction) :=
  if negb (is_valid_module_name is_valid_mdl_identifier module_name)
  then Ok (-1, db)
  else
    match check_existing db module_name with
    | Some status => Ok (status, db)
    | None =>
        version ←
          variant_module_version MDL_LATEST_VERSION db variant_data;
        match version with
        | inl status => Ok (status, db)
        | inr version =>
            let module := mdl_create_module module_name version in
            added ← add_variants [] db module variant_data;
            let '(result, symbol_importer, module1) := added in
            if negb (result =? 0) then Ok (result, db)
            else
              let module2 := add_imports symbol_importer module1 in
              let analyzed := analyze_module module2 in
              if negb (mod_is_valid analyzed) then Ok (-8, db)
              else
                let '(status, db1, _) :=
                  create_module_internal update_resource_literals db
                    analyzed in
                Ok (status, db1)
        end
    end.

End Synthesis.

(** ** [Input_stream]: an [IReader] as an input stream of the compiler *)

(** The reader holds the bytes still to come.  [IReader::read( &c, 1)]
    returns the number of bytes read, the byte, and the reader afterwards;
    at the end it reads nothing. *)
Definition reader_read (reader : list ascii) : Z * ascii * list ascii :=
  match reader with
  | [] => (0, Ascii.zero, [])
  | c :: reader' => (1, c, reader')
  end.

(** The conversion of a [char] to [int] in [return ... c]: whether [char] is
    signed is the platform's choice. *)
Definition char_to_int (char_is_signed : bool) (c : ascii) : Z :=
  let byte := Z.of_N (N_of_ascii c) in
  if char_is_signed && (128 <=? byte) then byte - 256 else byte.

Definition read_char (char_is_signed : bool) (reader : list ascii)
  : Z * list ascii :=
  let '(result, c, reader') := reader_read reader in
  (if result <=? 0 then -1 else char_to_int char_is_signed c, reader').

(** [read_char] called [n] times. *)
Fixpoint read_chars (char_is_signed : bool) (n : nat) (reader : list ascii)
  : list Z * list ascii :=
  match n with
  | O => ([], reader)
  | S n' =>
      let '(c, reader1) := read_char char_is_signed reader in
      let '(cs, reader2) := read_chars char_is_signed n' reader1 in
      (c :: cs, reader2)
  end.

(** ** Accessors of [Mdl_module] *)

Definition get_import_count (m : Mdl_module) : nat := List.length (m_imports m).

Definition get_import (m : Mdl_module) (index : nat) : Tag :=
  match m_imports m !! index with
  | Some tag => tag
  | None => 0%N
  end.

Definition get_function_count (m : Mdl_module) : nat :=
  List.length (m_functions m).

Definition get_function (db : Transaction) (m : Mdl_module) (index : nat)
  : Tag :=
  match m_functions m !! index with
  | Some name => name_to_tag db name
  | None => 0%N
  end.

(** [None] is the null pointer. *)
Definition get_function_name (m : Mdl_module) (index : nat) : option string :=
  m_functions m !! index.

Definition get_material_count (m : Mdl_module) : nat :=
  List.length (m_materials m).

Definition get_material (db : Transaction) (m : Mdl_module) (index : nat)
  : Tag :=
  match m_materials m !! index with
  | Some name => name_to_tag db name
  | None => 0%N
  end.

Definition get_material_name (m : Mdl_module) (index : nat) : option string :=
  m_materials m !! index.

(** ** [get_function_overloads] *)

(** [strchr( name, c)]: the offset of the first [c]. *)
Fixpoint find_char (c : ascii) (s : string) : option nat :=
  match s with
  | EmptyString => None
  | String x rest =>
      if Ascii.eqb x c then Some O else S <$> find_char c rest
  end.

(** [strncmp( a, b, n) == 0]: the first [n] characters agree, or both
    strings end before. *)
Fixpoint strncmp_eq (a b : string) (n : nat) : bool :=
  match n with
  | O => true
  | S n' =>
      match a, b with
      | EmptyString, EmptyString => true
      | String x a', String y b' => Ascii.eqb x y && strncmp_eq a' b' n'
      | _, _ => false
      end
  end.

(** "compute prefix length (without signature)" *)
Definition prefix_length (name : string) : nat :=
  match find_char "("%char name with
  | Some pos => pos
  | None => String.length name
  end.

(** The two tests on a function name [f] before the arguments are looked
    at: [true] when neither [continue] is taken. *)
Definition overload_candidate (name f : string) : bool :=
  let prefix_len := prefix_length name in
  strncmp_eq f name prefix_len
  && match String.get prefix_len f with
     | None => true
     | Some next => Ascii.eqb next "("%char
     end.

Section Overloads.

(** [definition_name_to_tag] and
    [Mdl_function_definition::create_function_call], neither among the
    sources: the latter answers with the call, if any, and [errors]. *)
Variable definition_name_to_tag : Transaction -> string -> Tag.
Variable create_function_call :
  Mdl_definition -> Transaction -> IExpression_list ->
  option Mdl_function_call * Z.

(** "arguments provided, check for exact match" *)
Definition exact_match (db : Transaction) (f : string)
    (arguments : IExpression_list) : bool :=
  let tag := definition_name_to_tag db f in
  if negb (tag_is_set tag) then false
  else
    match elements db !! tag with
    | Some (El_function_definition definition) =>
        let '(call, errors) :=
          create_function_call definition db arguments in
        match call with
        | Some _ => errors =? 0
        | None => false
        end
    | _ => false
    end.

(** [name] and [arguments] may be null. *)
Definition get_function_overloads (db : Transaction) (m : Mdl_module)
    (name : option string) (arguments : option IExpression_list)
  : list string :=
  match name with
  | None => []
  | Some name =>
      List.filter
        (fun f =>
           overload_candidate name f
           && match arguments with
              | None => true
              | Some arguments => exact_match db f arguments
              end)
        (m_functions m)
  end.

End Overloads.

(** ** Resource values *)

Inductive Texture_shape : Type :=
| TS_2D | TS_3D | TS_CUBE | TS_PTEX.

Record IValue_texture : Type := mkValueTexture {
  texture_shape : Texture_shape;
  texture_tag : Tag
}.

Record IValue_light_profile : Type := mkValueLightProfile {
  light_profile_tag : Tag
}.

Record IValue_bsdf_measurement : Type := mkValueBsdfMeasurement {
  bsdf_measurement_tag : Tag
}.

(** [file_path[0] != '/'] *)
Definition is_relative (file_path : string) : bool :=
  match file_path with
  | String c _ => negb (Ascii.eqb c "/"%char)
  | EmptyString => true
  end.

Section Resource_values.

(** The gamma value is only handed on. *)
Variable Float32 : Type.

(** [DETAIL::mdl_texture_to_tag], [mdl_light_profile_to_tag] and
    [mdl_bsdf_measurement_to_tag] with no module: the tag of the resource,
    0 if it cannot be loaded, and the transaction afterwards. *)
Variable mdl_texture_to_tag :
  Transaction -> string -> bool -> Float32 -> Tag * Transaction.
Variable mdl_light_profile_to_tag :
  Transaction -> string -> bool -> Tag * Transaction.
Variable mdl_bsdf_measurement_to_tag :
  Transaction -> string -> bool -> Tag * Transaction.

(** The transaction and the path may be null.  The result is the returned
    value, what is written to [*errors], and the transaction afterwards. *)
Definition create_texture (transaction : option Transaction)
    (file_path : option string) (shape : Texture_shape) (gamma : Float32)
    (shared : bool) : option IValue_texture * Z * option Transaction :=
  match transaction, file_path with
  | Some db, Some file_path =>
      if is_relative file_path then (None, -2, Some db)
      else
        let '(tag, db1) := mdl_texture_to_tag db file_path shared gamma in
        if negb (tag_is_set tag) then (None, -3, Some db1)
        else (Some (mkValueTexture shape tag), 0, Some db1)
  | _, _ => (None, -1, transaction)
  end.

Definition create_light_profile (transaction : option Transaction)
    (file_path : option string) (shared : bool)
  : option IValue_light_profile * Z * option Transaction :=
  match transaction, file_path with
  | Some db, Some file_path =>
      if is_relative file_path then (None, -2, Some db)
      else
        let '(tag, db1) := mdl_light_profile_to_tag db file_path shared in
        if negb (tag_is_set tag) then (None, -3, Some db1)
        else (Some (mkValueLightProfile tag), 0, Some db1)
  | _, _ => (None, -1, transaction)
  end.

Definition create_bsdf_measurement (transaction : option Transaction)
    (file_path : option string) (shared : bool)
  : option IValue_bsdf_measurement * Z * option Transaction :=
  match transaction, file_path with
  | Some db, Some file_path =>
      if is_relative file_path then (None, -2, Some db)
      else
        let '(tag, db1) :=
          mdl_bsdf_measurement_to_tag db file_path shared in
        if negb (tag_is_set tag) then (None, -3, Some db1)
        else (Some (mkValueBsdfMeasurement tag), 0, Some db1)
  | _, _ => (None, -1, transaction)
  end.

End Resource_values.

(** ** [add_annotation] *)

(** [std::string::rfind( "::")]: the offset of the last ["::"]. *)
Fixpoint rfind_scope (s : string) : option nat :=
  match s with
  | EmptyString => None
  | String c rest =>
      match rfind_scope rest with
      | Some pos => Some (S pos)
      | None =>
          match rest with
          | String c' _ =>
              if Ascii.eqb c ":"%char && Ascii.eqb c' ":"%char then Some O
              else None
          | EmptyString => None
          end
      end
  end.

Definition is_string_kind (kind : Type_kind) : bool :=
  match kind with
  | TK_STRING => true
  | _ => false
  end.

(** "store parameter types from annotation definition in a map by parameter
    name" *)
Definition parameter_type_map (parameters : IType_list) : gmap string IType :=
  foldl (fun map parameter => <[fst parameter := snd parameter]> map) ∅
    parameters.

(** The name the legacy API's ["argument"] stands for: the first key of the
    map, asked for only when there is exactly one parameter. *)
Definition legacy_argument_name (parameters : IType_list) (arg_name : string)
  : string :=
  match parameters with
  | [(parameter_name, _)] => parameter_name
  | _ => arg_name
  end.

Section Annotation_conversion.

(** [IModule::find_annotation( name, signature)]: the parameters of the
    annotation, none if the module has no such annotation; and
    [int_value_to_mdl_value], the conversion of an argument value for a
    parameter type.  Neither is among the sources. *)
Variable find_annotation : IModule -> string -> string -> option IType_list.
Variable int_value_to_mdl_value :
  Transaction -> IType -> IExpression -> option IExpression.

(** The loop "convert arguments" from index [i]; [None] is its
    [return -9]. *)
Fixpoint convert_arguments (db : Transaction) (parameters : IType_list)
    (argument_count : nat) (args : IExpression_list) (i : nat)
  : option (list (string * IExpression)) :=
  match args with
  | [] => Some []
  | (arg_name, arg_expr) :: args' =>
      match arg_expr with
      | Expr_constant _ arg_type =>
          let arg_name :=
            if Nat.eqb i 0
               && Nat.eqb (List.length parameters) 1
               && Nat.eqb argument_count 1
               && String.eqb arg_name "argument"
               && is_string_kind (type_kind arg_type)
            then legacy_argument_name parameters arg_name
            else arg_name in
          match parameter_type_map parameters !! arg_name with
          | None => None
          | Some mdl_parameter_type =>
              match int_value_to_mdl_value db mdl_parameter_type arg_expr
              with
              | None => None
              | Some mdl_arg_value =>
                  match convert_arguments db parameters argument_count
                          args' (S i) with
                  | None => None
                  | Some arguments =>
                      Some ((arg_name, mdl_arg_value) :: arguments)
                  end
              end
          end
      | _ => None
      end
  end.

(** The components of the qualified name: the DB name from offset 5 up to
    the parenthesis, cut at every ["::"]. *)
Definition annotation_components (annotation_name_str : string)
    (left_paren : nat) : list string :=
  let '(component, components) :=
    split_scope (substring 5 (left_paren - 5) annotation_name_str) in
  component :: components.

(** The result is the status and the annotation block afterwards.  The
    qualified name of the new annotation is written out, absolute, with
    its components. *)
Definition add_annotation (db : Transaction)
    (mdl_annotation_block : list Ast_annotation) (annotation_name : string)
    (annotation_args : IExpression_list)
  : res (Z * list Ast_annotation) :=
  if negb (strncmp_eq annotation_name "::" 2)
  then Ok (-10, mdl_annotation_block)
  else
    let annotation_name_str := add_mdl_db_prefix annotation_name in
    match find_char "("%char annotation_name_str with
    | None => Ok (-10, mdl_annotation_block)
    | Some left_paren =>
        let with_name := substring 0 left_paren annotation_name_str in
        match rfind_scope with_name with
        | None => Ok (-10, mdl_annotation_block)
        | Some last_double_colon =>
            let anno_db_module_name :=
              substring 0 last_double_colon with_name in
            let anno_db_module_tag := name_to_tag db anno_db_module_name in
            if negb (tag_is_set anno_db_module_tag)
            then Ok (-10, mdl_annotation_block)
            else
              anno_db_module ← access_module db anno_db_module_tag;
              let annotation_name_wo_signature :=
                substring 3 (left_paren - 3) annotation_name_str in
              let signature :=
                substring (left_paren + 1)
                  (String.length annotation_name_str - left_paren - 2)
                  annotation_name_str in
              match find_annotation (m_module anno_db_module)
                      annotation_name_wo_signature signature with
              | None => Ok (-10, mdl_annotation_block)
              | Some parameters =>
                  let qualified_name :=
                    "::" ++ String.concat "::"
                              (annotation_components annotation_name_str
                                 left_paren) in
                  match convert_arguments db parameters
                          (List.length annotation_args) annotation_args 0
                  with
                  | None => Ok (-9, mdl_annotation_block)
                  | Some arguments =>
                      Ok (0,
                          (mdl_annotation_block
                             ++ [mkAstAnnotation qualified_name arguments])
                            %list)
                  end
              end
        end
    end.

End Annotation_conversion.

(** ** Vocabulary of the properties *)



(** An override that fails one of the two checks of [add_variant]. *)
Definition bad_default (matches : IType -> IType -> bool)
    (expected_types : IType_list) (override : string * IExpression) : Prop :=
  match get_by_name expected_types (fst override) with
  | None => True
  | Some expected_type =>
      matches (get_type (snd override)) expected_type = false
  end.

(** The DB name is bound to a valid tag. *)
Definition registered (db : Transaction) (name : string) : Prop :=
  tag_is_set (name_to_tag db name) = true.

(** A resolver of resource literals that unbinds no name. *)
Definition keeps_names
    (update_resource_literals :
       Transaction -> Generated_code_dag -> IModule -> Transaction) : Prop :=
  forall db code_dag module name,
    registered db name ->
    registered (update_resource_literals db code_dag module) name.

(** ** Sample data *)

Module Samples.

Definition float_plain : IType := mkType TK_FLOAT MK_NONE.
Definition float_uniform : IType := mkType TK_FLOAT MK_UNIFORM.
Definition bool_plain : IType := mkType TK_BOOL MK_NONE.
Definition color_plain : IType := mkType TK_COLOR MK_NONE.
Definition bsdf_plain : IType := mkType TK_BSDF MK_NONE.
Definition texture_plain : IType := mkType TK_TEXTURE MK_NONE.

(** Module [::m]: [F] is varying, [U] is not. *)
Definition module_m : IModule :=
  mkModule "::m" "/mdl/m.mdl" true (1, 3) [] true
    (Some (mkDag 0 [] []))
    [("::m::F(float)", true); ("::m::U(float)", false)].

Definition db_module_m : Mdl_module :=
  mkMdlModule module_m (mkDag 0 [] []) "::m" "/mdl/m.mdl" [] [] [].

(** The module [::<neuray>], as the stream entry point registers it. *)
Definition module_neuray : IModule :=
  mkModule "::<neuray>" "" true (1, 0) [] true (Some (mkDag 0 [] [])) [].

Definition db_module_neuray : Mdl_module :=
  mkMdlModule module_neuray (mkDag 0 [] []) "::<neuray>" "" [] [] [].

Definition def_F : Mdl_definition :=
  mkDefinition 1 2 "::m::F(float)" true DS_UNKNOWN [("x", float_plain)]
    float_plain 0 [].

Definition def_U : Mdl_definition :=
  mkDefinition 1 6 "::m::U(float)" true DS_UNKNOWN [("x", float_uniform)]
    float_uniform 0 [].

Definition def_M : Mdl_definition :=
  mkDefinition 1 4 "::m::M(color)" true DS_UNKNOWN [("tint", color_plain)]
    bsdf_plain 0 [].

Definition def_h : Mdl_definition :=
  mkDefinition 13 14 "::<neuray>::h()" true DS_UNKNOWN [] float_plain 0 [].

Definition def_ternary : Mdl_definition :=
  mkDefinition 1 8 "operator?(bool,<0>,<0>)" true
    (operator_to_semantic OK_TERNARY)
    [("cond", bool_plain); ("true_exp", float_plain);
     ("false_exp", float_plain)]
    float_plain 0 [].

Definition const_100 : IExpression := Expr_constant 100 float_plain.
Definition const_101 : IExpression := Expr_constant 101 color_plain.
Definition const_102 : IExpression := Expr_constant 102 float_plain.
Definition const_103 : IExpression := Expr_constant 103 bool_plain.
Definition const_104 : IExpression := Expr_constant 104 float_plain.
Definition const_105 : IExpression := Expr_constant 105 float_plain.
Definition const_106 : IExpression := Expr_constant 106 texture_plain.

Definition ternary_arguments : IExpression_list :=
  [("cond", const_103); ("true_exp", const_104); ("false_exp", const_105)].

Definition call_F : IExpression := Expr_call 200 float_plain 3.
Definition call_M : IExpression := Expr_call 201 bsdf_plain 5.
Definition call_U : IExpression := Expr_call 202 float_uniform 7.
Definition call_ternary : IExpression := Expr_call 203 float_plain 9.
Definition direct_M : IExpression :=
  Expr_direct_call 204 bsdf_plain 4 [("tint", const_101)].
Definition direct_ternary : IExpression :=
  Expr_direct_call 205 float_plain 8 ternary_arguments.
Definition call_U_of_F : IExpression := Expr_call 206 float_uniform 11.

(** Tags 3, 7 and 9 are the calls [F(x: 100)], [U(x: 102)] and the ternary
    operator on constants, tag 5 is an instance of the material [M], tag 11
    is the call [U(x: F(...))]; tag 12 is an element of another class
    stored under the DB name of a function of module [::n]. *)
Definition sample_db : Transaction :=
  mkTransaction
    (list_to_map
       [("mdl::m", 1%N); ("mdl::m::F(float)", 2%N);
        ("mdl::m::M(color)", 4%N); ("mdl::m::U(float)", 6%N);
        ("mdl::n::f(float)", 12%N); ("mdl::<neuray>", 13%N)])
    (list_to_map
       [(1%N, El_module db_module_m);
        (2%N, El_function_definition def_F);
        (3%N, El_function_call
                (mkFunctionCall 2 [("x", const_100)] [("x", float_plain)]));
        (4%N, El_material_definition def_M);
        (5%N, El_material_instance
                (mkMaterialInstance 4 "::m::M(color)" [("tint", const_101)]
                   [("tint", color_plain)]));
        (6%N, El_function_definition def_U);
        (7%N, El_function_call
                (mkFunctionCall 6 [("x", const_102)]
                   [("x", float_uniform)]));
        (8%N, El_function_definition def_ternary);
        (9%N, El_function_call
                (mkFunctionCall 8 ternary_arguments
                   (def_parameter_types def_ternary)));
        (11%N, El_function_call
                 (mkFunctionCall 6 [("x", call_F)] [("x", float_uniform)]));
        (12%N, El_other 77);
        (13%N, El_module db_module_neuray);
        (14%N, El_function_definition def_h)])
    ∅ 20.

(** Module [::n] imports [::lib]; its function [::n::f(float)] has a DB name
    that [sample_db] already uses. *)
Definition entity_g : Dag_entity :=
  mkDagEntity "::lib::g()" true DS_UNKNOWN [] float_plain.

Definition entity_f : Dag_entity :=
  mkDagEntity "::n::f(float)" true DS_UNKNOWN [("x", float_plain)]
    float_plain.

Definition module_lib : IModule :=
  mkModule "::lib" "/mdl/lib.mdl" true (1, 0) [] true
    (Some (mkDag 0 [entity_g] [])) [("::lib::g()", false)].

Definition module_n : IModule :=
  mkModule "::n" "/mdl/n.mdl" true (1, 2) [module_lib] true
    (Some (mkDag 0 [entity_f] [])) [("::n::f(float)", false)].

(** The arguments of an instance of a material with a colour and a texture
    parameter. *)
Definition textured_call : ICall :=
  mkCall "::m::T(color,texture_2d)"
    (Some [("tint", const_101); ("tex", const_106)])
    [("tint", color_plain); ("tex", texture_plain)].

Definition textured_request : Material_data :=
  mkMaterialData "promoted"
    [mkParameterData "tex" "new_tex" false None;
     mkParameterData "tint" "new_tint" false None]
    None.

(** A resolver of resource literals that finds none. *)
Definition no_resources (db : Transaction) (code_dag : Generated_code_dag)
    (module : IModule) : Transaction := db.

(** A sample for [is_valid_mdl_identifier], the identifiers of MDL: a letter
    followed by letters, digits and underscores. *)
Definition is_letter (c : ascii) : bool :=
  let n := nat_of_ascii c in
  ((65 <=? n) && (n <=? 90) || (97 <=? n) && (n <=? 122))%nat.

Definition is_digit (c : ascii) : bool :=
  let n := nat_of_ascii c in
  ((48 <=? n) && (n <=? 57))%nat.

Fixpoint identifier_tail (s : string) : bool :=
  match s with
  | EmptyString => true
  | String c rest =>
      (is_letter c || is_digit c || Ascii.eqb c "_"%char)
      && identifier_tail rest
  end.

Definition mdl_identifier (s : string) : bool :=
  match s with
  | EmptyString => false
  | String c rest => is_letter c && identifier_tail rest
  end.

(** Loaders for the samples: [::lib] and [::n] can be loaded by name. *)
Definition sample_loader (db : Transaction) (name : string)
  : option IModule :=
  if String.eqb name "::lib" then Some module_lib
  else if String.eqb name "::n" then Some module_n
  else None.

Definition no_stream_loader (db : Transaction) (name : string)
    (source : list ascii) : option IModule := None.

(** Samples for the services of the synthesis: types are compatible when
    their kinds agree, a type name is made without qualifier, conversions
    keep the expression, every annotation is accepted. *)
Definition type_kind_eqb (a b : Type_kind) : bool :=
  match a, b with
  | TK_ALIAS, TK_ALIAS | TK_BOOL, TK_BOOL | TK_INT, TK_INT
  | TK_ENUM, TK_ENUM | TK_FLOAT, TK_FLOAT | TK_DOUBLE, TK_DOUBLE
  | TK_STRING, TK_STRING | TK_VECTOR, TK_VECTOR | TK_MATRIX, TK_MATRIX
  | TK_COLOR, TK_COLOR | TK_ARRAY, TK_ARRAY | TK_STRUCT, TK_STRUCT
  | TK_TEXTURE, TK_TEXTURE | TK_LIGHT_PROFILE, TK_LIGHT_PROFILE
  | TK_BSDF_MEASUREMENT, TK_BSDF_MEASUREMENT | TK_BSDF, TK_BSDF
  | TK_EDF, TK_EDF | TK_VDF, TK_VDF => true
  | _, _ => false
  end.

Definition same_kind (actual expected : IType) : bool :=
  type_kind_eqb (type_kind actual) (type_kind expected).

Definition plain_type_name (type : IType) : Type_name :=
  mkTypeName (Tn_of_type type) FQ_NONE.

Definition convert_expr (db : Transaction) (type : IType)
    (e : IExpression) : option Ast_expression :=
  Some (Ast_converted e (Some type)).

Definition transform (declared : list (string * IExpression))
    (e : IExpression) : Ast_expression :=
  Ast_converted e None.

Definition temporary_name (i : nat) : string :=
  "tmp" ++ String (ascii_of_nat (48 + i)) EmptyString.

Definition accept_annotation (db : Transaction)
    (block : list Ast_annotation) (name : string) (args : IExpression_list)
  : Z * list Ast_annotation :=
  (0, (block ++ [mkAstAnnotation name args])%list).

Definition analyze_nothing (module : Mutable_module) : IModule :=
  mkModule (mm_name module) "" true (1, 0) [] true (Some (mkDag 0 [] [])) [].

End Samples.

(** ** Further vocabulary *)

(** Every bound name is bound to a tag handed out before. *)
Definition tags_below (db : Transaction) : Prop :=
  forall name (tag : Tag),
    names db !! name = Some tag -> (tag < Npos (next_tag db))%N.

(** [db'] has grown out of [db]: no tag is handed out twice, the elements
    stored under the tags handed out before are the same, and bound names
    still point below the next tag. *)
Definition grows (db db' : Transaction) : Prop :=
  (next_tag db <= next_tag db')%positive
  /\ (forall tag : Tag,
         (tag < Npos (next_tag db))%N ->
         elements db' !! tag = elements db !! tag)
  /\ (tags_below db -> tags_below db').

(** A resolver of resource literals that only adds elements. *)
Definition resources_only_add
    (update_resource_literals :
       Transaction -> Generated_code_dag -> IModule -> Transaction) : Prop :=
  forall db code_dag module,
    grows db (update_resource_literals db code_dag module).

(** ** Further sample data *)

Module More_samples.

(** Module [::two]: an exported function, a local function and a
    material. *)
Definition entity_a : Dag_entity :=
  mkDagEntity "::two::a(float)" true DS_UNKNOWN
    [("x", Samples.float_plain)] Samples.float_plain.

Definition entity_local : Dag_entity :=
  mkDagEntity "::two::local()" false DS_UNKNOWN [] Samples.float_plain.

Definition entity_mat : Dag_entity :=
  mkDagEntity "::two::mat(color)" true DS_UNKNOWN
    [("tint", Samples.color_plain)] Samples.bsdf_plain.

Definition dag_two : Generated_code_dag :=
  mkDag 0 [entity_a; entity_local] [entity_mat].

Definition module_two : IModule :=
  mkModule "::two" "/mdl/two.mdl" true (1, 1) [Samples.module_lib] true
    (Some dag_two)
    [("::two::a(float)", false); ("::two::local()", false)].

End More_samples.

(** * Properties *)

(** ** Paths and names *)

Example split_path_segments :
  split_path "a.b.c" = ("a", ["b"; "c"])
  /\ split_path "tint" = ("tint", [])
  /\ split_path "a." = ("a", [""]).
Proof. repeat split. Qed.

Example split_scope_segments :
  split_scope "df::base" = ("df", ["base"])
  /\ split_scope "a:::b" = ("a", [":b"])
  /\ split_scope (skip_leading_scope "::m") = ("m", []).
Proof. repeat split. Qed.

Example find_path_descends :
  find_path Samples.sample_db "a.x" [("a", Samples.call_U)]
    = Some Samples.const_102
  /\ find_path Samples.sample_db "a.y" [("a", Samples.call_U)] = None
  /\ find_path Samples.sample_db "a.x.y" [("a", Samples.call_U)] = None
  /\ find_path Samples.sample_db "b" [("a", Samples.call_U)] = None.
Proof. repeat split; vm_compute; reflexivity. Qed.

(** A path of one segment is a lookup among the top-level arguments. *)
Lemma find_path_single_segment db path args :
  snd (split_path path) = [] ->
  find_path db path args = get_by_name args (fst (split_path path)).
Proof.
  unfold find_path. destruct (split_path path) as [param segs]. simpl.
  intros ->. by destruct (get_by_name args param).
Qed.

(** ** The work queue of [can_enforce_uniform] *)

Section Analysis.

Variable db : Transaction.
Variable p_expr : IExpression.

Lemma same_handle_refl e : same_handle e e = true.
Proof. unfold same_handle. apply N.eqb_refl. Qed.

(** The flag only ever records a hit of the target among the popped
    entries. *)
Lemma analyze_must_be_uniform fuel :
  forall queue must0 ok must,
    analyze fuel db p_expr queue must0 = Ok (ok, must) ->
    must = must0 || existsb (hits_target p_expr) (popped fuel db queue).
Proof.
  induction fuel as [|fuel IH]; intros queue must0 ok must H.
  - destruct queue as [|e queue]; simpl in *; [|discriminate].
    inversion H; subst. by rewrite orb_false_r.
  - destruct queue as [|e queue]; simpl in *.
    + inversion H; subst. by rewrite orb_false_r.
    + unfold mbind, res_bind in H.
      destruct (process_entry db e) as [[|pushed]| |] eqn:Hp;
        try discriminate.
      * inversion H; subst. simpl. by rewrite orb_false_r.
      * apply IH in H. rewrite H. by rewrite orb_assoc.
Qed.

(** A popped entry that the [switch] rejects ends the loop with [false]. *)
Lemma analyze_conflict fuel :
  forall queue must0 e,
    In e (popped fuel db queue) ->
    process_entry db e = Ok Conflict ->
    exists must, analyze fuel db p_expr queue must0 = Ok (false, must).
Proof.
  induction fuel as [|fuel IH]; intros queue must0 e Hin Hc.
  - destruct queue; simpl in Hin; contradiction.
  - destruct queue as [|e0 queue]; simpl in *; [contradiction|].
    unfold mbind, res_bind.
    destruct Hin as [->|Hin].
    + rewrite Hc. eauto.
    + destruct (process_entry db e0) as [[|pushed]| |] eqn:Hp;
        try contradiction.
      eapply IH; eauto.
Qed.

Lemma existsb_hits_target (l : list Entry) :
  existsb (hits_target p_expr) l = true <->
  exists e, In e l /\ m_is_uniform e = true
            /\ same_handle (m_expr e) p_expr = true.
Proof.
  rewrite existsb_exists. unfold hits_target.
  split; intros (e & Hin & H); exists e; split; auto.
  - by apply andb_true_iff in H.
  - by apply andb_true_iff.
Qed.

End Analysis.

Lemma class_of_function_call db tag fcall :
  elements db !! tag = Some (El_function_call fcall) ->
  get_class_id db tag = ID_MDL_FUNCTION_CALL
  /\ access_function_call db tag = Ok fcall.
Proof.
  intros H. unfold get_class_id, access_function_call. by rewrite H.
Qed.

Lemma class_of_function_definition db tag def :
  elements db !! tag = Some (El_function_definition def) ->
  get_class_id db tag = ID_MDL_FUNCTION_DEFINITION
  /\ access_function_definition db tag = Ok def.
Proof.
  intros H. unfold get_class_id, access_function_definition. by rewrite H.
Qed.

(** A constant satisfies any requirement and pushes nothing. *)
Lemma process_constant db a ty u :
  process_entry db (mkEntry (Expr_constant a ty) u) = Ok (Expand []).
Proof. reflexivity. Qed.

(** In the [EK_CALL] case the condition of a ternary operator is pushed with
    requirement [true], whatever the popped requirement and the declared
    qualifier of the condition. *)
Lemma call_ternary_condition_uniform db a ty tag fcall def u name cond rest
    pushed :
  elements db !! tag = Some (El_function_call fcall) ->
  elements db !! fc_function_definition fcall
    = Some (El_function_definition def) ->
  is_ternary_semantic (def_semantic def) = true ->
  fc_arguments fcall = (name, cond) :: rest ->
  process_entry db (mkEntry (Expr_call a ty tag) u) = Ok (Expand pushed) ->
  head pushed = Some (mkEntry cond true).
Proof.
  intros Htag Hdef Hter Hargs.
  destruct (class_of_function_call _ _ _ Htag) as [Hc Ha].
  destruct (class_of_function_definition _ _ _ Hdef) as [_ Hd].
  unfold process_entry. simpl. rewrite Hc, Ha. simpl. rewrite Hd. simpl.
  destruct (auto_must_be_uniform db u ty def) as [[auto|]| |]; simpl;
    try discriminate.
  rewrite Hargs, Hter. simpl.
  destruct (get_by_index (def_parameter_types def) 0); simpl;
    [|discriminate].
  destruct (push_arguments def true auto rest 1); simpl; try discriminate.
  intros H. inversion H; subst. simpl. by rewrite orb_true_r.
Qed.

(** The loop of the [EK_DIRECT_CALL] case follows the declared qualifiers
    for every argument, the first included, whatever the called function
    is. *)
Lemma direct_call_condition_follows_qualifier db a ty tag def name cond rest
    cond_type pushed :
  elements db !! tag = Some (El_function_definition def) ->
  get_by_index (def_parameter_types def) 0 = Some cond_type ->
  process_entry db
    (mkEntry (Expr_direct_call a ty tag ((name, cond) :: rest)) false)
    = Ok (Expand pushed) ->
  head pushed
  = Some (mkEntry cond
            (negb (has_modifier (type_modifiers cond_type) MK_VARYING)
             && has_modifier (type_modifiers cond_type) MK_UNIFORM)).
Proof.
  intros Hdef Hty.
  destruct (class_of_function_definition _ _ _ Hdef) as [Hc Hd].
  unfold process_entry. simpl. rewrite Hc, Hd. simpl. rewrite Hty. simpl.
  destruct (push_arguments def false false rest 1); simpl; try discriminate.
  intros H. by inversion H.
Qed.

(** C2.  The claim asks that the condition of every call of the ternary
    operator is pushed with requirement [true].  The [EK_CALL] case does so
    ([call_ternary_condition_uniform]); the [EK_DIRECT_CALL] case has no
    ternary test: a direct call of the ternary operator popped with
    requirement [false] pushes its unqualified condition with requirement
    [false], where the same call through a function-call element pushes it
    with [true]. *)
Theorem direct_call_ternary_condition_not_forced :
  process_entry Samples.sample_db (mkEntry Samples.direct_ternary false)
  = Ok (Expand [mkEntry Samples.const_103 false;
                mkEntry Samples.const_104 false;
                mkEntry Samples.const_105 false])
  /\ process_entry Samples.sample_db (mkEntry Samples.call_ternary false)
     = Ok (Expand [mkEntry Samples.const_103 true;
                   mkEntry Samples.const_104 false;
                   mkEntry Samples.const_105 false]).
Proof. split; vm_compute; reflexivity. Qed.

(** C3, as stated, fails in its last part: success depends on [p].  The
    parameter ["a"] is declared uniform and bound to the call [U(x: p)],
    typed uniform, whose parameter [x] is declared uniform; [p] is a call of
    the varying function [F].  The requirement reaches [p] and
    [must_be_uniform] is set, but the analysis returns [false]. *)
Lemma uniform_requirement_can_end_in_failure :
  find_path Samples.sample_db "a.x" [("a", Samples.call_U_of_F)]
    = Some Samples.call_F
  /\ forall fuel,
       can_enforce_uniform (S (S fuel)) Samples.sample_db
         [("a", Samples.call_U_of_F)] [("a", Samples.float_uniform)] "a.x"
         Samples.call_F = Ok (false, true).
Proof. split; [|intros fuel]; vm_compute; reflexivity. Qed.

(** C3, amended.  [must_be_uniform] is [true] exactly when a popped entry
    has the address of [p_expr] and requirement [true].  For a top-level
    parameter declared uniform whose argument is a call [F(p)], with the
    call typed uniform and the parameter [x] of [F] declared uniform: the
    entry [(p, true)] is popped, the analysis goes on as the analysis of [p]
    under requirement [true], so every result has [must_be_uniform = true],
    and the result is success when [p] is a constant. *)
Theorem must_be_uniform_iff_target_popped_uniform :
  (forall fuel db args param_types path p_expr first ok must,
      seed args param_types path = Ok first ->
      can_enforce_uniform fuel db args param_types path p_expr
        = Ok (ok, must) ->
      (must = true <->
       exists e, In e (popped fuel db [first]) /\ m_is_uniform e = true
                 /\ same_handle (m_expr e) p_expr = true))
  /\
  (forall fuel db args param_types path param_type a ret tag fcall def
          x x_type p,
      get_by_name args (fst (split_path path)) = Some (Expr_call a ret tag) ->
      get_by_name param_types (fst (split_path path)) = Some param_type ->
      has_modifier (type_modifiers param_type) MK_UNIFORM = true ->
      elements db !! tag = Some (El_function_call fcall) ->
      elements db !! fc_function_definition fcall
        = Some (El_function_definition def) ->
      has_modifier (type_modifiers ret) MK_UNIFORM = true ->
      fc_arguments fcall = [(x, p)] ->
      def_parameter_types def = [(x, x_type)] ->
      has_modifier (type_modifiers x_type) MK_UNIFORM = true ->
      has_modifier (type_modifiers x_type) MK_VARYING = false ->
      In (mkEntry p true)
         (popped (S (S fuel)) db [mkEntry (Expr_call a ret tag) true])
      /\ can_enforce_uniform (S (S fuel)) db args param_types path p
         = analyze (S fuel) db p [mkEntry p true] false
      /\ (forall ok must,
             can_enforce_uniform (S (S fuel)) db args param_types path p
               = Ok (ok, must) -> must = true)
      /\ (get_kind p = EK_CONSTANT ->
          can_enforce_uniform (S (S fuel)) db args param_types path p
            = Ok (true, true))).
Proof.
  split.
  - intros fuel db args param_types path p_expr first ok must Hseed H.
    unfold can_enforce_uniform in H. rewrite Hseed in H. simpl in H.
    apply analyze_must_be_uniform in H. simpl in H. rewrite H.
    apply existsb_hits_target.
  - intros fuel db args param_types path param_type a ret tag fcall def
           x x_type p Harg Hty Huni Htag Hdef Hret Hargs Hpars Hxu Hxv.
    destruct (class_of_function_call _ _ _ Htag) as [Hc Ha].
    destruct (class_of_function_definition _ _ _ Hdef) as [_ Hd].
    assert (Hstep : process_entry db (mkEntry (Expr_call a ret tag) true)
                    = Ok (Expand [mkEntry p true])).
    { unfold process_entry. simpl. rewrite Hc, Ha. simpl. rewrite Hd. simpl.
      unfold auto_must_be_uniform. rewrite Hret. simpl.
      rewrite Hargs. simpl. unfold get_by_index. rewrite Hpars. simpl.
      rewrite Hxu, Hxv.
      by destruct (is_ternary_semantic (def_semantic def)). }
    assert (Hrun : can_enforce_uniform (S (S fuel)) db args param_types path p
                   = verdict ← process_entry db (mkEntry p true);
                     match verdict with
                     | Conflict => Ok (false, true)
                     | Expand pushed => analyze fuel db p pushed true
                     end).
    { unfold can_enforce_uniform, seed. rewrite Harg, Hty. simpl.
      rewrite Huni. unfold mbind at 1. unfold res_bind at 1.
      rewrite Hstep. simpl.
      assert (Hhit : hits_target p (mkEntry p true) = true).
      { unfold hits_target. simpl. apply same_handle_refl. }
      by rewrite !Hhit, !orb_true_r. }
    split; [|split; [|split]].
    + simpl. rewrite Hstep. simpl. auto.
    + rewrite Hrun. simpl.
      assert (Hhit : hits_target p (mkEntry p true) = true).
      { unfold hits_target. simpl. apply same_handle_refl. }
      by rewrite Hhit.
    + intros ok must H. rewrite Hrun in H.
      destruct (process_entry db (mkEntry p true)) as [[|pushed]| |];
        simpl in H; try discriminate.
      * by inversion H.
      * apply analyze_must_be_uniform in H. by rewrite H.
    + intros Hk. rewrite Hrun.
      destruct p; try discriminate. by destruct fuel.
Qed.

Lemma must_be_uniform_iff_target_popped_uniform_witness :
  can_enforce_uniform 2 Samples.sample_db [("a", Samples.call_U)]
    [("a", Samples.float_uniform)] "a.x" Samples.const_102 = Ok (true, true).
Proof.
  apply (proj2 (proj2 (proj2 (proj2
           must_be_uniform_iff_target_popped_uniform 0%nat
           Samples.sample_db [("a", Samples.call_U)]
           [("a", Samples.float_uniform)] "a.x" Samples.float_uniform
           202%N Samples.float_uniform 7%N
           (mkFunctionCall 6 [("x", Samples.const_102)]
              [("x", Samples.float_uniform)])
           Samples.def_U "x" Samples.float_uniform Samples.const_102
           eq_refl eq_refl eq_refl eq_refl eq_refl eq_refl eq_refl eq_refl
           eq_refl eq_refl)))).
  reflexivity.
Defined.




(** C5.  When the path resolves to a call of a material instance and the
    loop pops that node with requirement [true], [can_enforce_uniform]
    returns [false]. *)
Theorem material_instance_uniform_fails
    fuel db args param_types path first a ty tag :
  find_path db path args = Some (Expr_call a ty tag) ->
  get_class_id db tag = ID_MDL_MATERIAL_INSTANCE ->
  seed args param_types path = Ok first ->
  In (mkEntry (Expr_call a ty tag) true) (popped fuel db [first]) ->
  can_enforce_uniform fuel db args param_types path (Expr_call a ty tag)
  = Ok (false, true).
Proof.
  intros _ Hclass Hseed Hin.
  assert (Hc : process_entry db (mkEntry (Expr_call a ty tag) true)
               = Ok Conflict).
  { unfold process_entry. simpl. by rewrite Hclass. }
  unfold can_enforce_uniform. rewrite Hseed. simpl.
  destruct (analyze_conflict db (Expr_call a ty tag) fuel [first] false _
              Hin Hc) as [must H].
  rewrite H. f_equal. f_equal.
  apply analyze_must_be_uniform in H. simpl in H. rewrite H.
  apply existsb_exists. eexists. split; [exact Hin|].
  unfold hits_target. simpl. by rewrite same_handle_refl.
Qed.

Lemma material_instance_uniform_fails_witness :
  can_enforce_uniform 3 Samples.sample_db [("a", Samples.call_M)]
    [("a", mkType TK_BSDF MK_UNIFORM)] "a" Samples.call_M = Ok (false, true).
Proof.
  apply (material_instance_uniform_fails 3 Samples.sample_db
           [("a", Samples.call_M)] [("a", mkType TK_BSDF MK_UNIFORM)] "a"
           (mkEntry Samples.call_M true) 201%N Samples.bsdf_plain 5%N).
  - vm_compute; reflexivity.
  - vm_compute; reflexivity.
  - vm_compute; reflexivity.
  - left. reflexivity.
Defined.

(** C10.  A popped direct call of a material definition makes
    [can_enforce_uniform] return [false] whatever its requirement; a call of
    a material instance is rejected only when its requirement is [true],
    and otherwise passes without pushing anything. *)
Theorem direct_call_of_material_always_fails :
  (forall db a ty tag args u,
      get_class_id db tag = ID_MDL_MATERIAL_DEFINITION ->
      process_entry db (mkEntry (Expr_direct_call a ty tag args) u)
        = Ok Conflict
      /\ forall fuel call_args param_types path p_expr first,
           seed call_args param_types path = Ok first ->
           In (mkEntry (Expr_direct_call a ty tag args) u)
              (popped fuel db [first]) ->
           exists must,
             can_enforce_uniform fuel db call_args param_types path p_expr
               = Ok (false, must))
  /\
  (forall db a ty tag u,
      get_class_id db tag = ID_MDL_MATERIAL_INSTANCE ->
      process_entry db (mkEntry (Expr_call a ty tag) u)
        = Ok (if u then Conflict else Expand [])).
Proof.
  split.
  - intros db a ty tag args u Hclass.
    assert (Hc : process_entry db
                   (mkEntry (Expr_direct_call a ty tag args) u)
                 = Ok Conflict).
    { unfold process_entry. simpl. by rewrite Hclass. }
    split; [exact Hc|].
    intros fuel call_args param_types path p_expr first Hseed Hin.
    unfold can_enforce_uniform. rewrite Hseed. simpl.
    eapply analyze_conflict; eauto.
  - intros db a ty tag u Hclass. unfold process_entry. simpl.
    rewrite Hclass. by destruct u.
Qed.

Lemma direct_call_of_material_always_fails_witness :
  (exists must,
      can_enforce_uniform 1 Samples.sample_db [("a", Samples.direct_M)]
        [("a", Samples.bsdf_plain)] "a" Samples.direct_M = Ok (false, must))
  /\ process_entry Samples.sample_db (mkEntry Samples.call_M false)
     = Ok (Expand []).
Proof.
  split.
  - apply (proj2 (proj1 direct_call_of_material_always_fails
                    Samples.sample_db 204%N Samples.bsdf_plain 4%N
                    [("tint", Samples.const_101)] false eq_refl)
             1%nat [("a", Samples.direct_M)] [("a", Samples.bsdf_plain)] "a"
             Samples.direct_M (mkEntry Samples.direct_M false)).
    + vm_compute; reflexivity.
    + left. reflexivity.
  - apply (proj2 direct_call_of_material_always_fails Samples.sample_db
             201%N Samples.bsdf_plain 5%N false).
    vm_compute; reflexivity.
Defined.

(** ** Module registration *)

Lemma name_in_use_exists db entities :
  name_in_use db entities = true <->
  exists entity,
    In entity entities
    /\ tag_is_set (name_to_tag db (add_mdl_db_prefix (dag_name entity)))
       = true.
Proof.
  induction entities as [|e entities IH]; simpl.
  - split; [discriminate|]. by intros (? & [] & _).
  - destruct (tag_is_set (name_to_tag db (add_mdl_db_prefix (dag_name e))))
      eqn:He.
    + split; [|done]. intros _. exists e. auto.
    + rewrite IH. split.
      * intros (x & Hin & Hx). exists x. auto.
      * intros (x & [->|Hin] & Hx); [congruence|]. exists x. auto.
Qed.

(** A reserved tag is a set tag. *)
Lemma reserved_tag_is_set db : tag_is_set (fst (reserve_tag db)) = true.
Proof. reflexivity. Qed.

Lemma store_definitions_names wrap entities :
  forall db db_module_tag name,
    ~ In name (db_names entities) ->
    names (store_definitions wrap db db_module_tag entities) !! name
    = names db !! name.
Proof.
  induction entities as [|e entities IH]; intros db t name Hnot; [done|].
  simpl in *. rewrite IH by tauto.
  destruct (dag_exported e); simpl; apply lookup_insert_ne; tauto.
Qed.

Lemma store_definitions_elements wrap entities :
  forall db db_module_tag (tag : Tag),
    (tag < Npos (next_tag db))%N ->
    elements (store_definitions wrap db db_module_tag entities) !! tag
    = elements db !! tag.
Proof.
  induction entities as [|e entities IH]; intros db t tag Hlt; [done|].
  simpl in *. rewrite IH.
  - destruct (dag_exported e); simpl; apply lookup_insert_ne; lia.
  - destruct (dag_exported e); simpl; lia.
Qed.

Lemma store_definitions_next_tag wrap entities :
  forall db db_module_tag,
    (next_tag db
     <= next_tag (store_definitions wrap db db_module_tag entities))%positive.
Proof.
  induction entities as [|e entities IH]; intros db t; simpl; [lia|].
  etransitivity; [|apply IH].
  destruct (dag_exported e); simpl; lia.
Qed.

(** After registration the module's DB name leads to a module element,
    unless one of its own definitions has that very DB name. *)
Lemma register_module_registers db module code_dag imports db' tag :
  ~ In (add_mdl_db_prefix (mod_name module))
      (db_names (dag_functions code_dag)
       ++ db_names (dag_materials code_dag)) ->
  register_module db module code_dag imports = (db', tag) ->
  name_to_tag db' (add_mdl_db_prefix (mod_name module)) = tag
  /\ tag_is_set tag = true
  /\ get_class_id db' tag = ID_MDL_MODULE.
Proof.
  intros Hnot H. unfold register_module, store in H. simpl in H.
  inversion H; subst; clear H.
  rewrite in_app_iff in Hnot.
  unfold name_to_tag, get_class_id.
  rewrite !store_definitions_names by tauto.
  rewrite !store_definitions_elements.
  - simpl. by rewrite !lookup_insert_eq.
  - simpl. lia.
  - pose proof (store_definitions_next_tag El_function_definition
                  (dag_functions code_dag)
                  (store_at (snd (reserve_tag db)) (Npos (next_tag db))
                     (El_module
                        (mkMdlModule module code_dag (mod_name module)
                           (mod_filename module) imports
                           (db_names (dag_functions code_dag))
                           (db_names (dag_materials code_dag))))
                     (add_mdl_db_prefix (mod_name module)))
                  (Npos (next_tag db))) as Hle.
    simpl in Hle. lia.
Qed.

(** Induction on a module with its imports. *)
Lemma IModule_imports_ind (P : IModule -> Prop) :
  (forall module, Forall P (mod_imports module) -> P module) ->
  forall module, P module.
Proof.
  intros H. fix IH 1. intros module. apply H.
  destruct module as [? ? ? ? imports ? ? ?]. simpl.
  induction imports as [|import imports IHimports]; constructor;
    [apply IH|exact IHimports].
Qed.

Lemma store_at_registered db tag el name name' :
  tag_is_set tag = true ->
  registered db name' -> registered (store_at db tag el name) name'.
Proof.
  unfold registered, name_to_tag, store_at. simpl. intros Hset H.
  destruct (decide (name = name')) as [->|Hne].
  - by rewrite lookup_insert_eq.
  - by rewrite lookup_insert_ne.
Qed.

Lemma store_for_reference_counting_registered db tag el name name' :
  tag_is_set tag = true ->
  registered db name' ->
  registered (store_for_reference_counting db tag el name) name'.
Proof.
  unfold registered, name_to_tag, store_for_reference_counting. simpl.
  intros Hset H.
  destruct (decide (name = name')) as [->|Hne].
  - by rewrite lookup_insert_eq.
  - by rewrite lookup_insert_ne.
Qed.

Lemma store_definitions_registered wrap entities :
  forall db db_module_tag name,
    registered db name ->
    registered (store_definitions wrap db db_module_tag entities) name.
Proof.
  induction entities as [|e entities IH]; intros db t name H; [done|].
  simpl. apply IH.
  destruct (dag_exported e); simpl.
  - by apply store_at_registered.
  - by apply store_for_reference_counting_registered.
Qed.

Lemma register_module_registered db module code_dag imports name :
  registered db name ->
  registered (fst (register_module db module code_dag imports)) name.
Proof.
  intros H. unfold register_module, store. simpl.
  do 2 apply store_definitions_registered.
  by apply store_at_registered.
Qed.

Section Registration.

Variable update_resource_literals :
  Transaction -> Generated_code_dag -> IModule -> Transaction.

(** [create_module_internal] with its import loop named. *)
Lemma create_module_internal_unfold db module :
  create_module_internal update_resource_literals db module =
  if negb (mod_is_valid module) then (-2, db, 0%N)
  else
    let db_module_tag :=
      name_to_tag db (add_mdl_db_prefix (mod_name module)) in
    if tag_is_set db_module_tag then
      if negb (class_id_eqb (get_class_id db db_module_tag) ID_MDL_MODULE)
      then (-3, db, 0%N)
      else (1, db, db_module_tag)
    else if negb (mod_restore_import_entries module) then (-4, db, 0%N)
    else
      match mod_compile module with
      | None => (-2, db, 0%N)
      | Some code_dag =>
          if (0 <? error_message_count code_dag)%nat then (-2, db, 0%N)
          else
            let '(status, db1, import_tags) :=
              before_name_checks update_resource_literals db module
                code_dag in
            if status <? 0 then (status, db1, 0%N)
            else if name_in_use db1 (dag_functions code_dag)
            then (-3, db1, 0%N)
            else if name_in_use db1 (dag_materials code_dag)
            then (-3, db1, 0%N)
            else
              let '(db2, tag) :=
                register_module db1 module code_dag import_tags in
              (0, db2, tag)
      end.
Proof. destruct module. reflexivity. Qed.

(** The existence check of [create_module_internal]. *)
Lemma create_module_internal_existing db module :
  mod_is_valid module = true ->
  tag_is_set (name_to_tag db (add_mdl_db_prefix (mod_name module))) = true ->
  create_module_internal update_resource_literals db module =
  if class_id_eqb
       (get_class_id db
          (name_to_tag db (add_mdl_db_prefix (mod_name module))))
       ID_MDL_MODULE
  then (1, db, name_to_tag db (add_mdl_db_prefix (mod_name module)))
  else (-3, db, 0%N).
Proof.
  intros Hv Hset. rewrite create_module_internal_unfold, Hv. simpl.
  rewrite Hset. by destruct (class_id_eqb _ _).
Qed.


Hypothesis resources_keep_names : keeps_names update_resource_literals.

Lemma collect_imports_registered todo :
  Forall (fun import =>
            forall db name,
              registered db name ->
              registered
                (snd (fst (create_module_internal update_resource_literals
                             db import))) name) todo ->
  forall db tags name,
    registered db name ->
    registered
      (snd (fst (collect_imports update_resource_literals db todo tags)))
      name.
Proof.
  induction 1 as [|import todo Himport _ IH]; intros db tags name H;
    simpl; [done|].
  destruct (tag_is_set _).
  - destruct (negb _); [done|]. by apply IH.
  - specialize (Himport db name H).
    destruct (create_module_internal _ db import) as [[result db1] tag].
    simpl in Himport.
    destruct (result <? 0); [done|]. by apply IH.
Qed.

(** Whatever [create_module_internal] does, a name that was bound stays
    bound. *)
Lemma create_module_internal_registered module :
  forall db name,
    registered db name ->
    registered
      (snd (fst (create_module_internal update_resource_literals db module)))
      name.
Proof.
  induction module as [module IH] using IModule_imports_ind.
  intros db name H. rewrite create_module_internal_unfold.
  destruct (negb (mod_is_valid module)); [done|]. cbv zeta.
  destruct (tag_is_set _).
  { by destruct (negb _). }
  destruct (negb (mod_restore_import_entries module)); [done|].
  destruct (mod_compile module) as [code_dag|]; [|done].
  destruct (0 <? error_message_count code_dag)%nat; [done|].
  pose proof (collect_imports_registered _ IH
                (update_resource_literals db code_dag module) [] name
                (resources_keep_names _ _ _ _ H)) as Hpre.
  unfold before_name_checks.
  destruct (collect_imports _ _ (mod_imports module) [])
    as [[st db2] tags]. simpl in Hpre.
  destruct (st <? 0); [done|].
  destruct (name_in_use db2 (dag_functions code_dag)); [done|].
  destruct (name_in_use db2 (dag_materials code_dag)); [done|].
  pose proof (register_module_registered db2 module code_dag tags name Hpre)
    as Hreg.
  by destruct (register_module db2 module code_dag tags).
Qed.

(** A name bound on entry is bound when the name checks start. *)
Lemma before_name_checks_registered db module code_dag name :
  registered db name ->
  registered
    (snd (fst (before_name_checks update_resource_literals db module
                 code_dag))) name.
Proof.
  intros H. unfold before_name_checks.
  apply collect_imports_registered.
  - apply Forall_forall. intros import _ db' name'.
    apply create_module_internal_registered.
  - by apply resources_keep_names.
Qed.

End Registration.

(** C1.  When [create_module_internal] reaches the name checks and the DB
    name of a function or material of the compiled module is in use, it
    returns -3 and the transaction is the one the name checks started with:
    neither the module record nor a definition record has been stored.  More
    generally every result other than 0 leaves the transaction untouched or
    as the import loop left it.  When resolving resource literals unbinds no
    name, a name that is in use on entry is still in use at the checks. *)
Theorem name_collision_registers_nothing :
  (forall update_resource_literals db module code_dag db1 import_tags entity,
      mod_is_valid module = true ->
      tag_is_set (name_to_tag db (add_mdl_db_prefix (mod_name module)))
        = false ->
      mod_restore_import_entries module = true ->
      mod_compile module = Some code_dag ->
      error_message_count code_dag = 0%nat ->
      before_name_checks update_resource_literals db module code_dag
        = (0, db1, import_tags) ->
      In entity (dag_functions code_dag ++ dag_materials code_dag) ->
      tag_is_set (name_to_tag db1 (add_mdl_db_prefix (dag_name entity)))
        = true ->
      create_module_internal update_resource_literals db module
        = (-3, db1, 0%N))
  /\ (forall update_resource_literals db module status db1 tag,
         create_module_internal update_resource_literals db module
           = (status, db1, tag) ->
         status <> 0 ->
         db1 = db
         \/ exists code_dag,
              mod_compile module = Some code_dag
              /\ db1 = snd (fst (before_name_checks update_resource_literals
                                   db module code_dag)))
  /\ (forall update_resource_literals db module code_dag db1 import_tags
             entity,
         keeps_names update_resource_literals ->
         before_name_checks update_resource_literals db module code_dag
           = (0, db1, import_tags) ->
         registered db (add_mdl_db_prefix (dag_name entity)) ->
         registered db1 (add_mdl_db_prefix (dag_name entity))).
Proof.
  split; [|split].
  - intros url db module code_dag db1 import_tags entity
           Hvalid Hfree Hrestore Hcode Herr Hpre Hin Hused.
    rewrite create_module_internal_unfold.
    rewrite Hvalid, Hrestore, Hcode, Herr. cbv zeta. rewrite Hfree. simpl.
    rewrite Hpre. simpl.
    apply in_app_iff in Hin.
    destruct (name_in_use db1 (dag_functions code_dag)) eqn:Hf; [done|].
    destruct (name_in_use db1 (dag_materials code_dag)) eqn:Hm; [done|].
    exfalso. destruct Hin as [Hin|Hin].
    + assert (name_in_use db1 (dag_functions code_dag) = true);
        [|congruence].
      apply name_in_use_exists. eauto.
    + assert (name_in_use db1 (dag_materials code_dag) = true);
        [|congruence].
      apply name_in_use_exists. eauto.
  - intros url db module status db1 tag H Hne.
    rewrite create_module_internal_unfold in H.
    destruct (negb (mod_is_valid module)); [inversion H; auto|].
    cbv zeta in H.
    destruct (tag_is_set _).
    { destruct (negb _); inversion H; auto. }
    destruct (negb (mod_restore_import_entries module));
      [inversion H; auto|].
    destruct (mod_compile module) as [code_dag|]; [|inversion H; auto].
    destruct (0 <? error_message_count code_dag)%nat; [inversion H; auto|].
    right. exists code_dag. split; [done|].
    destruct (before_name_checks url db module code_dag)
      as [[st db2] tags].
    destruct (st <? 0); [by inversion H|].
    destruct (name_in_use db2 (dag_functions code_dag)); [by inversion H|].
    destruct (name_in_use db2 (dag_materials code_dag)); [by inversion H|].
    destruct (register_module db2 module code_dag tags).
    inversion H; subst. done.
  - intros url db module code_dag db1 import_tags entity Hkeeps Hpre H.
    pose proof (before_name_checks_registered url Hkeeps db module code_dag
                  _ H) as H1.
    by rewrite Hpre in H1.
Qed.

Lemma name_collision_registers_nothing_witness :
  let db1 :=
    snd (fst (before_name_checks Samples.no_resources Samples.sample_db
                Samples.module_n (mkDag 0 [Samples.entity_f] []))) in
  create_module_internal Samples.no_resources Samples.sample_db
    Samples.module_n = (-3, db1, 0%N)
  /\ tag_is_set (name_to_tag db1 "mdl::lib") = true
  /\ name_to_tag db1 "mdl::n" = 0%N.
Proof.
  split; [|split; vm_compute; reflexivity].
  apply (proj1 name_collision_registers_nothing Samples.no_resources
           Samples.sample_db Samples.module_n
           (mkDag 0 [Samples.entity_f] []) _ [20%N] Samples.entity_f);
    try (vm_compute; reflexivity).
  left. reflexivity.
Defined.


Section Existing_names.

Variable update_resource_literals :
  Transaction -> Generated_code_dag -> IModule -> Transaction.
Variable is_valid_mdl_identifier : string -> bool.
Variable load_module : Transaction -> string -> option IModule.
Variable load_module_from_stream :
  Transaction -> string -> list ascii -> option IModule.
Variable argument_type_matches_parameter_type : IType -> IType -> bool.
Variable int_expr_to_mdl_ast_expr :
  Transaction -> IType -> IExpression -> option Ast_expression.
Variable create_type_name : IType -> Type_name.
Variable add_annotation :
  Transaction -> list Ast_annotation -> string -> IExpression_list ->
  Z * list Ast_annotation.
Variable MDL_LATEST_VERSION : MDL_version.
Variable analyze_module : Mutable_module -> IModule.


End Existing_names.


(** ** The version of a variant module *)









(** ** Synthesis *)

Lemma collect_imports_status update_resource_literals todo :
  forall db done status db1 tags,
    collect_imports update_resource_literals db todo done
      = (status, db1, tags) ->
    status = 0 \/ status = -3 \/ status = -4.
Proof.
  induction todo as [|import todo IH]; intros db done status db1 tags H;
    simpl in H.
  - inversion H; auto.
  - destruct (tag_is_set _).
    + destruct (negb _); [inversion H; auto|eauto].
    + destruct (create_module_internal _ db import) as [[result db2] tag].
      destruct (result <? 0); [inversion H; auto|eauto].
Qed.

Lemma create_module_internal_status update_resource_literals db module
    status db1 tag :
  create_module_internal update_resource_literals db module
    = (status, db1, tag) ->
  status = 0 \/ status = 1 \/ status = -2 \/ status = -3 \/ status = -4.
Proof.
  rewrite create_module_internal_unfold. intros H.
  destruct (negb (mod_is_valid module)); [inversion H; auto|].
  cbv zeta in H.
  destruct (tag_is_set _).
  { destruct (negb _); inversion H; auto. }
  destruct (negb (mod_restore_import_entries module)); [inversion H; auto|].
  destruct (mod_compile module) as [code_dag|]; [|inversion H; auto].
  destruct (0 <? error_message_count code_dag)%nat; [inversion H; auto|].
  destruct (before_name_checks _ db module code_dag)
    as [[st db2] tags] eqn:Hpre.
  apply collect_imports_status in Hpre.
  destruct (st <? 0); [inversion H; subst; tauto|].
  destruct (name_in_use db2 (dag_functions code_dag)); [inversion H; auto|].
  destruct (name_in_use db2 (dag_materials code_dag)); [inversion H; auto|].
  destruct (register_module db2 module code_dag tags).
  inversion H; auto.
Qed.

Section Variants.

Variable argument_type_matches_parameter_type : IType -> IType -> bool.
Variable int_expr_to_mdl_ast_expr :
  Transaction -> IType -> IExpression -> option Ast_expression.
Variable create_type_name : IType -> Type_name.
Variable add_annotation :
  Transaction -> list Ast_annotation -> string -> IExpression_list ->
  Z * list Ast_annotation.

Lemma check_defaults_good_prefix expected_types good rest :
  check_defaults argument_type_matches_parameter_type expected_types good
    = None ->
  check_defaults argument_type_matches_parameter_type expected_types
    (good ++ rest)%list
  = check_defaults argument_type_matches_parameter_type expected_types rest.
Proof.
  induction good as [|[name d] good IH]; simpl; [done|].
  destruct (get_by_name expected_types name) as [t|]; [|discriminate].
  destruct (negb _); [discriminate|]. exact IH.
Qed.

Lemma check_defaults_bad expected_types defaults override :
  In override defaults ->
  bad_default argument_type_matches_parameter_type expected_types override ->
  check_defaults argument_type_matches_parameter_type expected_types defaults
    = Some (-6)
  \/ check_defaults argument_type_matches_parameter_type expected_types
       defaults = Some (-7).
Proof.
  intros Hin Hbad.
  induction defaults as [|[name d] defaults IH]; [destruct Hin|].
  simpl. destruct (get_by_name expected_types name) as [t|] eqn:Hn; [|auto].
  destruct (argument_type_matches_parameter_type (get_type d) t) eqn:Hm;
    simpl; [|auto].
  destruct Hin as [<-|Hin]; [|auto].
  unfold bad_default in Hbad. simpl in Hbad. rewrite Hn in Hbad. congruence.
Qed.

Lemma add_variant_rejected is_material symbol_importer db module prototype
    target variant_name defaults annotation_block status :
  (if tag_is_set (def_prototype prototype)
   then access_prototype is_material db (def_prototype prototype)
   else Ok prototype) = Ok target ->
  check_defaults argument_type_matches_parameter_type
    (def_parameter_types target) defaults = Some status ->
  add_variant argument_type_matches_parameter_type int_expr_to_mdl_ast_expr
    create_type_name add_annotation is_material symbol_importer db module
    prototype variant_name (Some defaults) annotation_block
  = Ok (status, symbol_importer, module).
Proof.
  intros Htarget Hcheck. unfold add_variant. rewrite Htarget. simpl.
  by rewrite Hcheck.
Qed.

End Variants.

(** C8, as stated, fails: the checks run override by override and the first
    failure returns.  For the material [M(tint: color)], with a float value
    for ["tint"] before an override of the unknown name ["zzz"] the status
    is -7 although a name is unknown; in the other order it is -6 although
    a type does not match. *)
Lemma later_bad_default_is_not_reported :
  add_variant Samples.same_kind Samples.convert_expr Samples.plain_type_name
    Samples.accept_annotation true [] Samples.sample_db
    (mdl_create_module "::new" MDL_VERSION_1_3) Samples.def_M "v"
    (Some [("tint", Samples.const_100); ("zzz", Samples.const_100)]) None
  = Ok (-7, [], mdl_create_module "::new" MDL_VERSION_1_3)
  /\ add_variant Samples.same_kind Samples.convert_expr
       Samples.plain_type_name Samples.accept_annotation true []
       Samples.sample_db (mdl_create_module "::new" MDL_VERSION_1_3)
       Samples.def_M "v"
       (Some [("zzz", Samples.const_100); ("tint", Samples.const_100)]) None
     = Ok (-6, [], mdl_create_module "::new" MDL_VERSION_1_3).
Proof. split; vm_compute; reflexivity. Qed.

Section Variant_checks.

Variable argument_type_matches_parameter_type : IType -> IType -> bool.
Variable int_expr_to_mdl_ast_expr :
  Transaction -> IType -> IExpression -> option Ast_expression.
Variable create_type_name : IType -> Type_name.
Variable add_annotation :
  Transaction -> list Ast_annotation -> string -> IExpression_list ->
  Z * list Ast_annotation.
Variable MDL_LATEST_VERSION : MDL_version.
Variable is_valid_mdl_identifier : string -> bool.
Variable update_resource_literals :
  Transaction -> Generated_code_dag -> IModule -> Transaction.
Variable analyze_module : Mutable_module -> IModule.

(** C8, amended.  [target] is the prototype after dereferencing.  An
    override that fails a check makes [add_variant] return -6 or -7 with the
    importer and the module under construction as they were; the first
    failing override in list order decides: -6 when its name is not a
    parameter of the prototype, -7 when the type of its value does not match.
    A creation from variants that returns -6 or -7 leaves the transaction
    unchanged. *)
Theorem first_bad_default_decides :
  (forall is_material symbol_importer db module prototype target
          variant_name defaults annotation_block,
      (if tag_is_set (def_prototype prototype)
       then access_prototype is_material db (def_prototype prototype)
       else Ok prototype) = Ok target ->
      let run :=
        add_variant argument_type_matches_parameter_type
          int_expr_to_mdl_ast_expr create_type_name add_annotation
          is_material symbol_importer db module prototype variant_name
          (Some defaults) annotation_block in
      (forall override,
          In override defaults ->
          bad_default argument_type_matches_parameter_type
            (def_parameter_types target) override ->
          run = Ok (-6, symbol_importer, module)
          \/ run = Ok (-7, symbol_importer, module))
      /\ (forall good name default_ rest,
             defaults = (good ++ (name, default_) :: rest)%list ->
             check_defaults argument_type_matches_parameter_type
               (def_parameter_types target) good = None ->
             (get_by_name (def_parameter_types target) name = None ->
              run = Ok (-6, symbol_importer, module))
             /\ (forall expected_type,
                    get_by_name (def_parameter_types target) name
                      = Some expected_type ->
                    argument_type_matches_parameter_type
                      (get_type default_) expected_type = false ->
                    run = Ok (-7, symbol_importer, module))))
  /\ (forall db module_name variant_data status db1,
         create_module_from_variants argument_type_matches_parameter_type
           int_expr_to_mdl_ast_expr create_type_name add_annotation
           MDL_LATEST_VERSION is_valid_mdl_identifier
           update_resource_literals analyze_module db module_name
           variant_data = Ok (status, db1) ->
         status = -6 \/ status = -7 ->
         db1 = db).
Proof.
  split.
  - intros is_material symbol_importer db module prototype target
           variant_name defaults annotation_block Htarget run.
    split.
    + intros override Hin Hbad.
      destruct (check_defaults_bad argument_type_matches_parameter_type
                  _ _ _ Hin Hbad) as [H|H]; [left|right];
        eapply add_variant_rejected; eauto.
    + intros good name default_ rest -> Hgood. split.
      * intros Hname. eapply add_variant_rejected; eauto.
        rewrite check_defaults_good_prefix by done. simpl.
        by rewrite Hname.
      * intros expected_type Hname Hmatch.
        eapply add_variant_rejected; eauto.
        rewrite check_defaults_good_prefix by done. simpl.
        by rewrite Hname, Hmatch.
  - intros db module_name variant_data status db1 H Hst.
    unfold create_module_from_variants in H.
    destruct (negb _); [by inversion H|].
    destruct (check_existing db module_name); [by inversion H|].
    unfold mbind, res_bind in H.
    destruct (variant_module_version _ db variant_data) as [[st|version]| |];
      try discriminate; [by inversion H|].
    destruct (add_variants _ _ _ _ [] db _ variant_data)
      as [[[result importer] module1]| |]; try discriminate.
    destruct (negb (result =? 0)); [by inversion H|].
    destruct (negb (mod_is_valid _)); [by inversion H|].
    destruct (create_module_internal _ db _) as [[st db2] tag] eqn:Hint.
    inversion H; subst.
    apply create_module_internal_status in Hint. lia.
Qed.

End Variant_checks.

Lemma first_bad_default_decides_witness :
  add_variant Samples.same_kind Samples.convert_expr Samples.plain_type_name
    Samples.accept_annotation true [] Samples.sample_db
    (mdl_create_module "::new" MDL_VERSION_1_3) Samples.def_M "v"
    (Some [("tint", Samples.const_101); ("zzz", Samples.const_100)]) None
  = Ok (-6, [], mdl_create_module "::new" MDL_VERSION_1_3)
  /\ add_variant Samples.same_kind Samples.convert_expr
       Samples.plain_type_name Samples.accept_annotation true []
       Samples.sample_db (mdl_create_module "::new" MDL_VERSION_1_3)
       Samples.def_M "v"
       (Some [("tint", Samples.const_100)]) None
     = Ok (-7, [], mdl_create_module "::new" MDL_VERSION_1_3)
  /\ snd (match
            create_module_from_variants Samples.same_kind
              Samples.convert_expr Samples.plain_type_name
              Samples.accept_annotation MDL_VERSION_1_4
              Samples.mdl_identifier Samples.no_resources
              Samples.analyze_nothing Samples.sample_db "::new"
              [mkVariantData 4 "v" (Some [("tint", Samples.const_100)]) None]
          with
          | Ok r => r
          | _ => (0, Samples.sample_db)
          end) = Samples.sample_db.
Proof.
  pose proof (first_bad_default_decides Samples.same_kind
                Samples.convert_expr Samples.plain_type_name
                Samples.accept_annotation MDL_VERSION_1_4
                Samples.mdl_identifier Samples.no_resources
                Samples.analyze_nothing) as [Hadd Hcreate].
  split; [|split].
  - apply (proj1 (proj2 (Hadd true [] Samples.sample_db
                           (mdl_create_module "::new" MDL_VERSION_1_3)
                           Samples.def_M Samples.def_M "v"
                           [("tint", Samples.const_101);
                            ("zzz", Samples.const_100)] None eq_refl)
                    [("tint", Samples.const_101)] "zzz" Samples.const_100 []
                    eq_refl eq_refl) eq_refl).
  - apply (proj2 (proj2 (Hadd true [] Samples.sample_db
                           (mdl_create_module "::new" MDL_VERSION_1_3)
                           Samples.def_M Samples.def_M "v"
                           [("tint", Samples.const_100)] None eq_refl)
                    [] "tint" Samples.const_100 []
                    eq_refl eq_refl) Samples.color_plain eq_refl eq_refl).
  - apply (Hcreate Samples.sample_db "::new"
             [mkVariantData 4 "v" (Some [("tint", Samples.const_100)]) None]
             (-7)).
    + vm_compute. reflexivity.
    + right. reflexivity.
Defined.

(** ** Promoted parameters *)

Section Materials.

Variable create_type_name : IType -> Type_name.
Variable transform_expr :
  list (string * IExpression) -> IExpression -> Ast_expression.
Variable get_temporary_symbol : nat -> string.
Variable add_annotation :
  Transaction -> list Ast_annotation -> string -> IExpression_list ->
  Z * list Ast_annotation.


Lemma new_parameters_resolved fuel db args param_types parameters :
  forall new_params,
    new_parameters fuel db args param_types parameters
      = Ok (inr new_params) ->
    Forall2 (fun pd np =>
               np_sym np = pd_name pd
               /\ find_path db (pd_path pd) args = Some (np_init np))
      parameters new_params.
Proof.
  induction parameters as [|pd parameters IH]; intros new_params H;
    simpl in H.
  - inversion H. constructor.
  - destruct (find_path db (pd_path pd) args) as [expr|] eqn:Hfind;
      [|discriminate].
    unfold mbind, res_bind in H.
    destruct (can_enforce_uniform fuel db args param_types (pd_path pd) expr)
      as [[possible must]| |]; try discriminate.
    destruct (negb possible); [discriminate|].
    destruct (new_parameters fuel db args param_types parameters)
      as [[status|rest]| |]; try discriminate.
    inversion H; subst. constructor; [|by apply IH].
    simpl. auto.
Qed.



End Materials.


(** * Further properties *)

(** ** The input stream *)

Lemma char_to_int_small char_is_signed c :
  char_is_signed = false \/ (N_of_ascii c < 128)%N ->
  char_to_int char_is_signed c = Z.of_N (N_of_ascii c)
  /\ 0 <= char_to_int char_is_signed c.
Proof.
  intros H. unfold char_to_int.
  destruct char_is_signed; simpl; [|lia].
  destruct H as [H|H]; [discriminate|].
  destruct (Z.leb_spec 128 (Z.of_N (N_of_ascii c))); lia.
Qed.

(** X1.  Reading a stream of [n] bytes [n + 1] times gives the bytes as
    numbers, in order, and then -1, when [char] is unsigned or every byte is
    below 128; no earlier read gives a negative number.  Where [char] is
    signed, the byte 255 reads as -1, the value that stands for the end. *)
Theorem read_chars_until_end :
  (forall char_is_signed reader,
      char_is_signed = false
      \/ Forall (fun c => (N_of_ascii c < 128)%N) reader ->
      read_chars char_is_signed (S (List.length reader)) reader
      = ((map (fun c => Z.of_N (N_of_ascii c)) reader ++ [-1])%list, [])
      /\ Forall (fun c => 0 <= fst (read_char char_is_signed [c])) reader)
  /\ (forall reader,
         read_char true (ascii_of_N 255 :: reader) = (-1, reader)).
Proof.
  split.
  - intros char_is_signed reader H.
    induction reader as [|c reader IH].
    + split; [reflexivity|constructor].
    + assert (Hc : char_is_signed = false \/ (N_of_ascii c < 128)%N).
      { destruct H as [H|H]; [auto|]. inversion H; auto. }
      assert (Hrest : char_is_signed = false
                      \/ Forall (fun c => (N_of_ascii c < 128)%N) reader).
      { destruct H as [H|H]; [auto|]. inversion H; auto. }
      destruct (IH Hrest) as [IH1 IH2].
      destruct (char_to_int_small _ _ Hc) as [Hv Hpos].
      split.
      * change (read_chars char_is_signed (S (List.length (c :: reader)))
                  (c :: reader))
          with (let '(cs, reader2) :=
                  read_chars char_is_signed (S (List.length reader)) reader in
                (char_to_int char_is_signed c :: cs, reader2)).
        rewrite IH1, Hv. reflexivity.
      * constructor; [exact Hpos|exact IH2].
  - intros reader. reflexivity.
Qed.

Lemma read_chars_until_end_witness :
  read_chars true 3 ["a"%char; "/"%char]
  = (([97; 47] ++ [-1])%list, []).
Proof.
  assert (H : Forall (fun c => (N_of_ascii c < 128)%N)
                ["a"%char; "/"%char]) by (repeat constructor).
  exact (proj1 (proj1 read_chars_until_end true ["a"%char; "/"%char]
                  (or_intror H))).
Defined.

(** ** Overloads *)

(** The name up to its signature. *)
Lemma overload_candidate_step x name y f :
  Ascii.eqb x "("%char = false ->
  overload_candidate (String x name) (String y f)
  = Ascii.eqb y x && overload_candidate name f.
Proof.
  intros Hx. unfold overload_candidate, prefix_length. simpl. rewrite Hx.
  destruct (find_char "("%char name); simpl; by rewrite andb_assoc.
Qed.

Lemma overload_candidate_empty_prefix f :
  match String.get 0 f with
  | None => true
  | Some next => Ascii.eqb next "("%char
  end = true <->
  f = EmptyString \/ exists signature, f = "" ++ "(" ++ signature.
Proof.
  destruct f as [|y f]; simpl.
  - split; [intros _; by left|done].
  - destruct (Ascii.eqb_spec y "("%char) as [->|Hy].
    + split; [|done]. intros _. right. by exists f.
    + split; [discriminate|].
      intros [H|[s H]]; [discriminate|]. inversion H. congruence.
Qed.

Lemma strncmp_eq_0 a b : strncmp_eq a b 0 = true.
Proof. by destruct a. Qed.

Lemma overload_candidate_spec name :
  forall f,
    overload_candidate name f = true <->
    f = substring 0 (prefix_length name) name
    \/ exists signature,
         f = substring 0 (prefix_length name) name ++ "(" ++ signature.
Proof.
  induction name as [|x name IH]; intros f.
  - unfold overload_candidate, prefix_length. simpl.
    rewrite strncmp_eq_0. apply overload_candidate_empty_prefix.
  - destruct (Ascii.eqb_spec x "("%char) as [->|Hx].
    + unfold overload_candidate, prefix_length. simpl.
      rewrite strncmp_eq_0. apply overload_candidate_empty_prefix.
    + assert (Hlen : prefix_length (String x name) = S (prefix_length name)).
      { unfold prefix_length. simpl.
        destruct (Ascii.eqb_spec x "("%char); [congruence|].
        by destruct (find_char "("%char name). }
      rewrite Hlen. simpl.
      destruct f as [|y f].
      * split.
        -- unfold overload_candidate. rewrite Hlen. simpl. discriminate.
        -- intros [H|[s H]]; discriminate.
      * rewrite overload_candidate_step
          by (by destruct (Ascii.eqb_spec x "("%char)).
        rewrite andb_true_iff, IH.
        split.
        -- intros [Hy [->|[s ->]]];
             apply Ascii.eqb_eq in Hy; subst; [left|right; exists s];
             reflexivity.
        -- intros [H|[s H]]; inversion H; subst;
             (split; [apply Ascii.eqb_refl|]); [left|right; exists s];
             reflexivity.
Qed.

Lemma prefix_length_cons x name :
  prefix_length (String x name)
  = if Ascii.eqb x "("%char then 0%nat else S (prefix_length name).
Proof.
  unfold prefix_length. simpl.
  destruct (Ascii.eqb x "("%char); [reflexivity|].
  by destruct (find_char "("%char name).
Qed.

Lemma prefix_length_of_prefix name :
  prefix_length (substring 0 (prefix_length name) name) = prefix_length name.
Proof.
  induction name as [|x name IH]; [reflexivity|].
  rewrite prefix_length_cons.
  destruct (Ascii.eqb x "("%char) eqn:Hx; [reflexivity|].
  simpl. by rewrite prefix_length_cons, Hx, IH.
Qed.

Lemma substring_prefix_idem n s :
  substring 0 n (substring 0 n s) = substring 0 n s.
Proof.
  revert s. induction n as [|n IH]; intros s; destruct s; simpl; auto.
  by rewrite IH.
Qed.

Section Overload_properties.

Variable definition_name_to_tag : Transaction -> string -> Tag.
Variable create_function_call :
  Mdl_definition -> Transaction -> IExpression_list ->
  option Mdl_function_call * Z.

(** X2.  Without arguments [get_function_overloads] returns, in the order of
    the module, exactly the functions whose name is the given name cut
    before its first parenthesis, alone or followed by a parenthesis; with
    or without arguments the signature part of the given name plays no
    role, and no name yields nothing. *)
Theorem overloads_ignore_the_signature :
  (forall db m name f,
      In f (get_function_overloads definition_name_to_tag
              create_function_call db m (Some name) None)
      <-> In f (m_functions m)
          /\ (f = substring 0 (prefix_length name) name
              \/ exists signature,
                   f = substring 0 (prefix_length name) name
                       ++ "(" ++ signature))
  /\ (forall db m name arguments,
         get_function_overloads definition_name_to_tag create_function_call
           db m (Some name) arguments
         = get_function_overloads definition_name_to_tag
             create_function_call db m
             (Some (substring 0 (prefix_length name) name)) arguments
         /\ exists keep,
              get_function_overloads definition_name_to_tag
                create_function_call db m (Some name) arguments
              = List.filter keep (m_functions m))
  /\ (forall db m arguments,
         get_function_overloads definition_name_to_tag create_function_call
           db m None arguments = []).
Proof.
  split; [|split].
  - intros db m name f. unfold get_function_overloads.
    rewrite filter_In, andb_true_r, overload_candidate_spec. tauto.
  - intros db m name arguments. split; [|unfold get_function_overloads; eauto].
    unfold get_function_overloads.
    apply filter_ext. intros f. f_equal.
    apply eq_true_iff_eq. rewrite !overload_candidate_spec.
    by rewrite prefix_length_of_prefix, substring_prefix_idem.
  - reflexivity.
Qed.

End Overload_properties.

(** ** Registration of a module and its definitions *)

Lemma store_definitions_next_tag_eq wrap entities :
  forall db db_module_tag,
    Npos (next_tag (store_definitions wrap db db_module_tag entities))
    = (Npos (next_tag db) + N.of_nat (List.length entities))%N.
Proof.
  induction entities as [|entity entities IH]; intros db db_module_tag.
  - simpl. lia.
  - simpl. destruct (dag_exported entity); rewrite IH; simpl; lia.
Qed.

Lemma store_definitions_lookup wrap entities :
  forall db db_module_tag i entity,
    NoDup (db_names entities) ->
    entities !! i = Some entity ->
    names (store_definitions wrap db db_module_tag entities)
      !! add_mdl_db_prefix (dag_name entity)
    = Some (Npos (next_tag db) + N.of_nat i)%N
    /\ elements (store_definitions wrap db db_module_tag entities)
         !! (Npos (next_tag db) + N.of_nat i)%N
       = Some (wrap (new_definition db_module_tag
                       (Npos (next_tag db) + N.of_nat i)%N entity)).
Proof.
  induction entities as [|entity0 entities IH];
    intros db db_module_tag i entity Hnodup Hi; [done|].
  simpl in Hnodup. inversion Hnodup as [|? ? Hfresh Hrest]; subst.
  rewrite list_elem_of_In in Hfresh.
  destruct i as [|i]; simpl in Hi.
  - inversion Hi; subst. replace (Npos (next_tag db) + N.of_nat 0)%N
      with (Npos (next_tag db)) by lia.
    simpl. split.
    + rewrite store_definitions_names by exact Hfresh.
      destruct (dag_exported entity); simpl; by rewrite lookup_insert_eq.
    + rewrite store_definitions_elements
        by (destruct (dag_exported entity); simpl; lia).
      destruct (dag_exported entity); simpl; by rewrite lookup_insert_eq.
  - replace (Npos (next_tag db) + N.of_nat (S i))%N
      with (Npos (Pos.succ (next_tag db)) + N.of_nat i)%N by lia.
    simpl.
    destruct (dag_exported entity0);
      match goal with
      | |- context [store_definitions wrap ?d _ _] =>
          apply (IH d db_module_tag i entity Hrest Hi)
      end.
Qed.

Lemma store_definitions_reference_counted wrap entities :
  forall db db_module_tag (tag : Tag),
    tag ∈ reference_counted
            (store_definitions wrap db db_module_tag entities)
    <-> tag ∈ reference_counted db
        \/ exists i entity,
             entities !! i = Some entity
             /\ tag = (Npos (next_tag db) + N.of_nat i)%N
             /\ dag_exported entity = false.
Proof.
  induction entities as [|entity0 entities IH]; intros db db_module_tag tag.
  - simpl. split; [by left|]. intros [H|(i & entity & H & _)]; done.
  - simpl. destruct (dag_exported entity0) eqn:Hexp; rewrite IH; simpl.
    + split.
      * intros [H|(i & entity & Hi & -> & He)]; [by left|].
        right. exists (S i), entity. repeat split; [done|lia|done].
      * intros [H|(i & entity & Hi & -> & He)]; [by left|].
        destruct i as [|i]; simpl in Hi; [congruence|].
        right. exists i, entity. repeat split; [done|lia|done].
    + split.
      * intros [H|(i & entity & Hi & -> & He)].
        -- apply elem_of_union in H as [H|H]; [|by left].
           apply elem_of_singleton in H. right.
           exists 0%nat, entity0. repeat split; [lia|done].
        -- right. exists (S i), entity. repeat split; [done|lia|done].
      * intros [H|(i & entity & Hi & -> & He)].
        -- left. apply elem_of_union. by right.
        -- destruct i as [|i]; simpl in Hi.
           ++ left. apply elem_of_union. left. apply elem_of_singleton. lia.
           ++ right. exists i, entity. repeat split; [done|lia|done].
Qed.

Lemma db_names_lookup entities i entity :
  entities !! i = Some entity ->
  db_names entities !! i = Some (add_mdl_db_prefix (dag_name entity)).
Proof. intros H. unfold db_names. by rewrite list_lookup_fmap, H. Qed.

Lemma db_names_length entities :
  List.length (db_names entities) = List.length entities.
Proof. unfold db_names. by rewrite length_map. Qed.

Lemma In_db_names entities i entity :
  entities !! i = Some entity ->
  In (add_mdl_db_prefix (dag_name entity)) (db_names entities).
Proof.
  intros H. apply list_elem_of_In. unfold db_names.
  apply list_elem_of_fmap. exists entity. split; [done|].
  by eapply list_elem_of_lookup_2.
Qed.

(** X3.  After [register_module] with pairwise distinct DB names, the
    stored module lists the imports it was given and the DB names of its
    functions and materials, in the order of the generated code; the
    accessors [get_function] and [get_material] answer, for every index in
    range, with the tag of the definition made from the entity at that
    index, owned by the module; and an index out of range gives the
    invalid tag and no name. *)
Theorem registered_definitions_round_trip :
  forall db module code_dag imports db' tag,
    NoDup (add_mdl_db_prefix (mod_name module)
                :: db_names (dag_functions code_dag)
                ++ db_names (dag_materials code_dag))%list ->
    register_module db module code_dag imports = (db', tag) ->
    exists db_module,
      access_module db' tag = Ok db_module
      /\ name_to_tag db' (add_mdl_db_prefix (mod_name module)) = tag
      /\ m_imports db_module = imports
      /\ get_function_count db_module
         = List.length (dag_functions code_dag)
      /\ get_material_count db_module
         = List.length (dag_materials code_dag)
      /\ (forall i entity,
             dag_functions code_dag !! i = Some entity ->
             get_function_name db_module i
             = Some (add_mdl_db_prefix (dag_name entity))
             /\ tag_is_set (get_function db' db_module i) = true
             /\ access_function_definition db'
                  (get_function db' db_module i)
                = Ok (new_definition tag (get_function db' db_module i)
                        entity))
      /\ (forall j entity,
             dag_materials code_dag !! j = Some entity ->
             get_material_name db_module j
             = Some (add_mdl_db_prefix (dag_name entity))
             /\ tag_is_set (get_material db' db_module j) = true
             /\ access_material_definition db'
                  (get_material db' db_module j)
                = Ok (new_definition tag (get_material db' db_module j)
                        entity))
      /\ (forall i,
             (List.length (dag_functions code_dag) <= i)%nat ->
             get_function db' db_module i = 0%N
             /\ get_function_name db_module i = None)
      /\ (forall j,
             (List.length (dag_materials code_dag) <= j)%nat ->
             get_material db' db_module j = 0%N
             /\ get_material_name db_module j = None).
Proof.
  intros db module code_dag imports db' tag Hnodup Hreg.
  inversion Hnodup as [|? ? Hmodule Hdefs]; subst.
  apply NoDup_app in Hdefs. destruct Hdefs as (Hfuns & Hdisjoint & Hmats).
  rewrite list_elem_of_In in Hmodule.
  assert (Hdisjoint' : forall x, In x (db_names (dag_functions code_dag)) ->
                                 ~ In x (db_names (dag_materials code_dag))).
  { intros x. rewrite <- !list_elem_of_In. apply Hdisjoint. }
  clear Hdisjoint. rename Hdisjoint' into Hdisjoint.
  unfold register_module, store, reserve_tag in Hreg. cbv zeta in Hreg.
  inversion Hreg; subst; clear Hreg.
  set (db_module := mkMdlModule module code_dag (mod_name module)
                      (mod_filename module) imports
                      (db_names (dag_functions code_dag))
                      (db_names (dag_materials code_dag))).
  set (db1 := store_at _ _ _ _).
  set (db2 := store_definitions El_function_definition db1 _ _).
  set (db3 := store_definitions El_material_definition db2 _ _).
  assert (Hnext1 : Npos (next_tag db1) = (Npos (next_tag db) + 1)%N)
    by (simpl; lia).
  assert (Hnext2 : Npos (next_tag db2)
                   = (Npos (next_tag db) + 1
                      + N.of_nat (List.length (dag_functions code_dag)))%N).
  { unfold db2. rewrite store_definitions_next_tag_eq. lia. }
  assert (Hmod_names : names db3 !! add_mdl_db_prefix (mod_name module)
                       = Some (Npos (next_tag db))).
  { unfold db3, db2.
    rewrite !store_definitions_names
      by (intros Hin; apply Hmodule, in_or_app; auto).
    unfold db1. simpl. by rewrite lookup_insert_eq. }
  assert (Hmod_el : access_module db3 (Npos (next_tag db)) = Ok db_module).
  { unfold access_module, db3. rewrite store_definitions_elements by lia.
    unfold db2. rewrite store_definitions_elements by lia.
    unfold db1. simpl. by rewrite lookup_insert_eq. }
  assert (Hfun : forall i entity,
             dag_functions code_dag !! i = Some entity ->
             name_to_tag db3 (add_mdl_db_prefix (dag_name entity))
             = (Npos (next_tag db) + 1 + N.of_nat i)%N
             /\ access_function_definition db3
                  (Npos (next_tag db) + 1 + N.of_nat i)%N
                = Ok (new_definition (Npos (next_tag db))
                        (Npos (next_tag db) + 1 + N.of_nat i)%N entity)).
  { intros i entity Hi.
    destruct (store_definitions_lookup El_function_definition _ db1
                (Npos (next_tag db)) i entity Hfuns Hi) as [Hn He].
    fold db2 in Hn, He. rewrite Hnext1 in Hn, He.
    assert (Hlt : (i < List.length (dag_functions code_dag))%nat)
      by (by eapply lookup_lt_Some).
    split.
    - unfold name_to_tag, db3. rewrite store_definitions_names.
      + unfold Tag in *. by rewrite Hn.
      + intros Hin. eapply Hdisjoint; [|exact Hin]. by eapply In_db_names.
    - unfold access_function_definition, db3.
      rewrite store_definitions_elements by lia.
      unfold Tag in *. by rewrite He. }
  assert (Hmat : forall j entity,
             dag_materials code_dag !! j = Some entity ->
             name_to_tag db3 (add_mdl_db_prefix (dag_name entity))
             = (Npos (next_tag db) + 1
                + N.of_nat (List.length (dag_functions code_dag))
                + N.of_nat j)%N
             /\ access_material_definition db3
                  (Npos (next_tag db) + 1
                   + N.of_nat (List.length (dag_functions code_dag))
                   + N.of_nat j)%N
                = Ok (new_definition (Npos (next_tag db))
                        (Npos (next_tag db) + 1
                         + N.of_nat (List.length (dag_functions code_dag))
                         + N.of_nat j)%N entity)).
  { intros j entity Hj.
    destruct (store_definitions_lookup El_material_definition _ db2
                (Npos (next_tag db)) j entity Hmats Hj) as [Hn He].
    fold db3 in Hn, He. rewrite Hnext2 in Hn, He.
    split.
    - unfold name_to_tag, Tag in *. by rewrite Hn.
    - unfold access_material_definition, Tag in *. by rewrite He. }
  exists db_module.
  split; [exact Hmod_el|].
  split; [unfold name_to_tag; by rewrite Hmod_names|].
  split; [reflexivity|].
  split; [apply db_names_length|].
  split; [apply db_names_length|].
  split; [|split; [|split]].
  - intros i entity Hi. destruct (Hfun i entity Hi) as [Hn He].
    assert (Hget : get_function db3 db_module i
                   = (Npos (next_tag db) + 1 + N.of_nat i)%N).
    { unfold get_function. simpl. by rewrite (db_names_lookup _ _ _ Hi). }
    rewrite Hget. split; [|split; [|done]].
    + unfold get_function_name. simpl. by apply db_names_lookup.
    + unfold tag_is_set. apply negb_true_iff, N.eqb_neq. lia.
  - intros j entity Hj. destruct (Hmat j entity Hj) as [Hn He].
    assert (Hget : get_material db3 db_module j
                   = (Npos (next_tag db) + 1
                      + N.of_nat (List.length (dag_functions code_dag))
                      + N.of_nat j)%N).
    { unfold get_material. simpl. by rewrite (db_names_lookup _ _ _ Hj). }
    rewrite Hget. split; [|split; [|done]].
    + unfold get_material_name. simpl. by apply db_names_lookup.
    + unfold tag_is_set. apply negb_true_iff, N.eqb_neq. lia.
  - intros i Hi. unfold get_function, get_function_name. simpl.
    rewrite lookup_ge_None_2; [done|]. by rewrite db_names_length.
  - intros j Hj. unfold get_material, get_material_name. simpl.
    rewrite lookup_ge_None_2; [done|]. by rewrite db_names_length.
Qed.

Lemma registered_definitions_round_trip_witness :
  let registration :=
    register_module Samples.sample_db More_samples.module_two
      More_samples.dag_two [1%N] in
  exists db_module,
    access_module (fst registration) (snd registration) = Ok db_module
    /\ m_imports db_module = [1%N]
    /\ get_function_name db_module 1 = Some "mdl::two::local()"
    /\ access_function_definition (fst registration)
         (get_function (fst registration) db_module 1)
       = Ok (new_definition (snd registration)
               (get_function (fst registration) db_module 1)
               More_samples.entity_local)
    /\ get_function (fst registration) db_module 2 = 0%N.
Proof.
  intros registration.
  assert (Hnodup : NoDup
            (add_mdl_db_prefix (mod_name More_samples.module_two)
             :: db_names (dag_functions More_samples.dag_two)
             ++ db_names (dag_materials More_samples.dag_two))%list).
  { apply (bool_decide_unpack _). vm_compute. exact I. }
  destruct (registered_definitions_round_trip Samples.sample_db
              More_samples.module_two More_samples.dag_two [1%N]
              (fst registration) (snd registration) Hnodup eq_refl)
    as (db_module & Hmod & _ & Himports & _ & _ & Hfun & _ & Hout & _).
  exists db_module.
  destruct (Hfun 1%nat More_samples.entity_local eq_refl)
    as (Hname & _ & Hdef).
  destruct (Hout 2%nat (le_n 2)) as [Hzero _].
  repeat split; assumption.
Defined.

Lemma store_definitions_binds wrap entities :
  forall db db_module_tag name,
    In name (db_names entities) ->
    exists i,
      (i < List.length entities)%nat
      /\ names (store_definitions wrap db db_module_tag entities) !! name
         = Some (Npos (next_tag db) + N.of_nat i)%N.
Proof.
  induction entities as [|entity entities IH];
    intros db db_module_tag name Hin; [done|].
  destruct (decide (name ∈ db_names entities)) as [Hlater|Hlast].
  - apply list_elem_of_In in Hlater. simpl.
    destruct (dag_exported entity);
      match goal with
      | |- context [store_definitions wrap ?d _ _] =>
          destruct (IH d db_module_tag name Hlater) as (i & Hi & Hname)
      end;
      exists (S i); (split; [simpl; lia|]);
      rewrite Hname; simpl; f_equal; lia.
  - rewrite list_elem_of_In in Hlast.
    destruct Hin as [<-|Hin]; [|done].
    exists 0%nat. split; [simpl; lia|]. simpl.
    rewrite store_definitions_names by exact Hlast.
    destruct (dag_exported entity); simpl; rewrite lookup_insert_eq;
      f_equal; lia.
Qed.

(** X4.  [register_module] only adds.  It takes one fresh tag for the
    module and one for each function and material; a name that is neither
    the module's nor a definition's keeps its binding; no element stored
    under a tag handed out before is replaced and no tag loses its
    reference-counting mark; and every name of the module and of its
    definitions ends up bound to one of the fresh tags, also when two of
    them coincide. *)
Theorem registration_only_adds :
  forall db module code_dag imports db' tag,
    register_module db module code_dag imports = (db', tag) ->
    let new_names :=
      (add_mdl_db_prefix (mod_name module)
       :: db_names (dag_functions code_dag)
       ++ db_names (dag_materials code_dag))%list in
    tag = Npos (next_tag db)
    /\ Npos (next_tag db')
       = (Npos (next_tag db) + 1
          + N.of_nat (List.length (dag_functions code_dag))
          + N.of_nat (List.length (dag_materials code_dag)))%N
    /\ (forall name, ~ In name new_names -> names db' !! name = names db !! name)
    /\ (forall t : Tag,
           (t < Npos (next_tag db))%N ->
           elements db' !! t = elements db !! t)
    /\ (forall t : Tag, t ∈ reference_counted db -> t ∈ reference_counted db')
    /\ (forall name,
           In name new_names ->
           (Npos (next_tag db) <= name_to_tag db' name
            < Npos (next_tag db'))%N).
Proof.
  intros db module code_dag imports db' tag Hreg new_names.
  unfold register_module, store, reserve_tag in Hreg. cbv zeta in Hreg.
  inversion Hreg; subst; clear Hreg.
  set (db1 := store_at _ _ _ _).
  set (db2 := store_definitions El_function_definition db1 _ _).
  set (db3 := store_definitions El_material_definition db2 _ _).
  assert (Hnext1 : Npos (next_tag db1) = (Npos (next_tag db) + 1)%N)
    by (simpl; lia).
  assert (Hnext2 : Npos (next_tag db2)
                   = (Npos (next_tag db) + 1
                      + N.of_nat (List.length (dag_functions code_dag)))%N).
  { unfold db2. rewrite store_definitions_next_tag_eq. lia. }
  assert (Hnext3 : Npos (next_tag db3)
                   = (Npos (next_tag db) + 1
                      + N.of_nat (List.length (dag_functions code_dag))
                      + N.of_nat (List.length (dag_materials code_dag)))%N).
  { unfold db3. rewrite store_definitions_next_tag_eq. lia. }
  split; [reflexivity|]. split; [exact Hnext3|].
  split; [|split; [|split]].
  - intros name Hnew. unfold new_names in Hnew. simpl in Hnew.
    unfold db3. rewrite store_definitions_names
      by (intros H; apply Hnew; right; apply in_or_app; by right).
    unfold db2. rewrite store_definitions_names
      by (intros H; apply Hnew; right; apply in_or_app; by left).
    unfold db1. simpl. apply lookup_insert_ne. intros H. apply Hnew. by left.
  - intros t Ht.
    unfold db3. rewrite store_definitions_elements by lia.
    unfold db2. rewrite store_definitions_elements by lia.
    unfold db1. simpl. apply lookup_insert_ne. lia.
  - intros t Ht.
    unfold db3. apply store_definitions_reference_counted. left.
    unfold db2. apply store_definitions_reference_counted. left.
    exact Ht.
  - intros name Hnew. unfold new_names in Hnew. rewrite Hnext3.
    destruct (decide (name ∈ db_names (dag_materials code_dag)))
      as [Hmat|Hmat]; rewrite list_elem_of_In in Hmat.
    { destruct (store_definitions_binds El_material_definition _ db2
                  (Npos (next_tag db)) name Hmat) as (i & Hi & Hname).
      fold db3 in Hname. unfold name_to_tag, Tag in *. rewrite Hname.
      simpl. lia. }
    unfold name_to_tag, db3.
    rewrite store_definitions_names by exact Hmat.
    destruct (decide (name ∈ db_names (dag_functions code_dag)))
      as [Hfun|Hfun]; rewrite list_elem_of_In in Hfun.
    { destruct (store_definitions_binds El_function_definition _ db1
                  (Npos (next_tag db)) name Hfun) as (i & Hi & Hname).
      fold db2 in Hname. unfold Tag in *. rewrite Hname. simpl. lia. }
    unfold db2. rewrite store_definitions_names by exact Hfun.
    destruct Hnew as [<-|Hnew];
      [|apply in_app_or in Hnew; tauto].
    unfold db1. simpl. rewrite lookup_insert_eq. simpl. lia.
Qed.

Lemma registration_only_adds_witness :
  let registration :=
    register_module Samples.sample_db More_samples.module_two
      More_samples.dag_two [1%N] in
  snd registration = 20%N
  /\ Npos (next_tag (fst registration)) = 24%N
  /\ names (fst registration) !! "mdl::m" = names Samples.sample_db !! "mdl::m"
  /\ elements (fst registration) !! 2%N = elements Samples.sample_db !! 2%N
  /\ (20 <= name_to_tag (fst registration) "mdl::two::mat(color)" < 24)%N.
Proof.
  intros registration.
  destruct (registration_only_adds Samples.sample_db More_samples.module_two
              More_samples.dag_two [1%N] (fst registration)
              (snd registration) eq_refl)
    as (Htag & Hnext & Hnames & Helements & _ & Hnew).
  split; [exact Htag|]. split; [exact Hnext|].
  split; [apply Hnames; vm_compute; intuition discriminate|].
  split; [apply Helements; reflexivity|].
  apply Hnew. vm_compute. tauto.
Defined.

(** X5.  In a transaction whose reference-counting marks are on tags
    handed out before, [register_module] marks exactly the definitions that
    are not exported: the tag of the module is not marked, and the tag
    bound to the name of a function or material, the names being pairwise
    distinct, is marked if and only if its entity is not exported. *)
Theorem unexported_definitions_are_reference_counted :
  forall db module code_dag imports db' tag,
    (forall t : Tag,
        t ∈ reference_counted db -> (t < Npos (next_tag db))%N) ->
    NoDup (add_mdl_db_prefix (mod_name module)
           :: db_names (dag_functions code_dag)
           ++ db_names (dag_materials code_dag))%list ->
    register_module db module code_dag imports = (db', tag) ->
    (tag ∉ reference_counted db')
    /\ forall entity,
         In entity (dag_functions code_dag ++ dag_materials code_dag) ->
         (name_to_tag db' (add_mdl_db_prefix (dag_name entity))
            ∈ reference_counted db')
         <-> dag_exported entity = false.
Proof.
  intros db module code_dag imports db' tag Hmarks Hnodup Hreg.
  inversion Hnodup as [|? ? Hmodule Hdefs]; subst.
  apply NoDup_app in Hdefs. destruct Hdefs as (Hfuns & Hdisjoint & Hmats).
  assert (Hdisjoint' : forall x, In x (db_names (dag_functions code_dag)) ->
                                 ~ In x (db_names (dag_materials code_dag))).
  { intros x. rewrite <- !list_elem_of_In. apply Hdisjoint. }
  unfold register_module, store, reserve_tag in Hreg. cbv zeta in Hreg.
  inversion Hreg; subst; clear Hreg.
  set (db1 := store_at _ _ _ _).
  set (db2 := store_definitions El_function_definition db1 _ _).
  set (db3 := store_definitions El_material_definition db2 _ _).
  assert (Hnext1 : Npos (next_tag db1) = (Npos (next_tag db) + 1)%N)
    by (simpl; lia).
  assert (Hnext2 : Npos (next_tag db2)
                   = (Npos (next_tag db) + 1
                      + N.of_nat (List.length (dag_functions code_dag)))%N).
  { unfold db2. rewrite store_definitions_next_tag_eq. lia. }
  assert (Hcounted : forall t : Tag,
             t ∈ reference_counted db3 <->
             t ∈ reference_counted db
             \/ (exists i entity,
                    dag_functions code_dag !! i = Some entity
                    /\ t = (Npos (next_tag db) + 1 + N.of_nat i)%N
                    /\ dag_exported entity = false)
             \/ (exists j entity,
                    dag_materials code_dag !! j = Some entity
                    /\ t = (Npos (next_tag db) + 1
                            + N.of_nat (List.length (dag_functions code_dag))
                            + N.of_nat j)%N
                    /\ dag_exported entity = false)).
  { intros t. unfold db3. rewrite store_definitions_reference_counted.
    unfold db2 at 1. rewrite store_definitions_reference_counted.
    fold db2. rewrite Hnext1, Hnext2. unfold db1 at 1. simpl. tauto. }
  split.
  - intros Hin. apply Hcounted in Hin.
    destruct Hin as [Hin|[(i & e & _ & Ht & _)|(j & e & _ & Ht & _)]];
      [apply Hmarks in Hin|..]; lia.
  - intros entity Hin. apply in_app_or in Hin.
    destruct Hin as [Hin|Hin];
      apply list_elem_of_In, list_elem_of_lookup_1 in Hin;
      destruct Hin as [k Hk].
    + destruct (store_definitions_lookup El_function_definition _ db1
                  (Npos (next_tag db)) k entity Hfuns Hk) as [Hn _].
      fold db2 in Hn. rewrite Hnext1 in Hn.
      assert (Hname : name_to_tag db3 (add_mdl_db_prefix (dag_name entity))
                      = (Npos (next_tag db) + 1 + N.of_nat k)%N).
      { unfold name_to_tag, db3. rewrite store_definitions_names.
        - unfold Tag in *. by rewrite Hn.
        - apply Hdisjoint'. by eapply In_db_names. }
      rewrite Hname, Hcounted.
      assert (Hlt : (k < List.length (dag_functions code_dag))%nat)
        by (by eapply lookup_lt_Some).
      split.
      * intros [H|[(i & e & Hi & Ht & He)|(j & e & _ & Ht & _)]].
        -- apply Hmarks in H. lia.
        -- assert (i = k) by lia. subst. congruence.
        -- lia.
      * intros He. right. left. by exists k, entity.
    + destruct (store_definitions_lookup El_material_definition _ db2
                  (Npos (next_tag db)) k entity Hmats Hk) as [Hn _].
      fold db3 in Hn. rewrite Hnext2 in Hn.
      assert (Hname : name_to_tag db3 (add_mdl_db_prefix (dag_name entity))
                      = (Npos (next_tag db) + 1
                         + N.of_nat (List.length (dag_functions code_dag))
                         + N.of_nat k)%N).
      { unfold name_to_tag, Tag in *. by rewrite Hn. }
      rewrite Hname, Hcounted.
      split.
      * intros [H|[(i & e & Hi & Ht & He)|(j & e & Hj & Ht & He)]].
        -- apply Hmarks in H. lia.
        -- apply lookup_lt_Some in Hi. lia.
        -- assert (j = k) by lia. subst. congruence.
      * intros He. right. right. by exists k, entity.
Qed.

Lemma unexported_definitions_are_reference_counted_witness :
  let registration :=
    register_module Samples.sample_db More_samples.module_two
      More_samples.dag_two [1%N] in
  (name_to_tag (fst registration) "mdl::two::local()"
     ∈ reference_counted (fst registration))
  /\ (name_to_tag (fst registration) "mdl::two::a(float)"
        ∉ reference_counted (fst registration)).
Proof.
  intros registration.
  assert (Hmarks : forall t : Tag,
             t ∈ reference_counted Samples.sample_db ->
             (t < Npos (next_tag Samples.sample_db))%N).
  { intros t Ht. simpl in Ht. by apply elem_of_empty in Ht. }
  assert (Hnodup : NoDup
            (add_mdl_db_prefix (mod_name More_samples.module_two)
             :: db_names (dag_functions More_samples.dag_two)
             ++ db_names (dag_materials More_samples.dag_two))%list).
  { apply (bool_decide_unpack _). vm_compute. exact I. }
  destruct (unexported_definitions_are_reference_counted Samples.sample_db
              More_samples.module_two More_samples.dag_two [1%N]
              (fst registration) (snd registration) Hmarks Hnodup eq_refl)
    as [_ Hdefs].
  split.
  - apply (Hdefs More_samples.entity_local); [simpl; tauto|reflexivity].
  - intros H. apply (Hdefs More_samples.entity_a) in H;
      [discriminate|simpl; tauto].
Defined.

(** ** Outcomes of [create_module_internal] *)

Lemma register_module_tag db module code_dag imports :
  snd (register_module db module code_dag imports) = Npos (next_tag db).
Proof. reflexivity. Qed.

Lemma register_module_element db module code_dag imports :
  access_module (fst (register_module db module code_dag imports))
    (snd (register_module db module code_dag imports))
  = Ok (mkMdlModule module code_dag (mod_name module) (mod_filename module)
          imports (db_names (dag_functions code_dag))
          (db_names (dag_materials code_dag))).
Proof.
  unfold register_module, store, reserve_tag, access_module. cbv zeta. simpl.
  rewrite !store_definitions_elements.
  - simpl. by rewrite lookup_insert_eq.
  - simpl. lia.
  - pose proof (store_definitions_next_tag El_function_definition
                  (dag_functions code_dag)
                  (store_at
                     (mkTransaction (names db) (elements db)
                        (reference_counted db) (Pos.succ (next_tag db)))
                     (Npos (next_tag db))
                     (El_module
                        (mkMdlModule module code_dag (mod_name module)
                           (mod_filename module) imports
                           (db_names (dag_functions code_dag))
                           (db_names (dag_materials code_dag))))
                     (add_mdl_db_prefix (mod_name module)))
                  (Npos (next_tag db))) as Hle.
    simpl in Hle. lia.
Qed.

Section Creation_outcomes.

Variable update_resource_literals :
  Transaction -> Generated_code_dag -> IModule -> Transaction.

Lemma create_module_internal_cases db module status db' tag :
  create_module_internal update_resource_literals db module
    = (status, db', tag) ->
  (status = -2 /\ db' = db /\ tag = 0%N)
  \/ (status = 1 /\ db' = db
      /\ tag = name_to_tag db (add_mdl_db_prefix (mod_name module))
      /\ tag_is_set tag = true
      /\ get_class_id db tag = ID_MDL_MODULE)
  \/ ((status = -3 \/ status = -4) /\ tag = 0%N)
  \/ (status = 0
      /\ exists code_dag db1 import_tags,
           mod_compile module = Some code_dag
           /\ before_name_checks update_resource_literals db module code_dag
              = (0, db1, import_tags)
           /\ name_in_use db1 (dag_functions code_dag) = false
           /\ name_in_use db1 (dag_materials code_dag) = false
           /\ register_module db1 module code_dag import_tags = (db', tag)).
Proof.
  rewrite create_module_internal_unfold. intros H.
  destruct (negb (mod_is_valid module)); [inversion H; auto|].
  cbv zeta in H.
  destruct (tag_is_set _) eqn:Hset.
  { destruct (class_id_eqb _ _) eqn:Hclass; simpl in H; inversion H; subst.
    - right. left. repeat split; [done|].
      destruct (get_class_id db' _); simpl in Hclass; done.
    - right. right. left. auto. }
  destruct (negb (mod_restore_import_entries module));
    [inversion H; subst; right; right; left; auto|].
  destruct (mod_compile module) as [code_dag|]; [|inversion H; auto].
  destruct (0 <? error_message_count code_dag)%nat; [inversion H; auto|].
  destruct (before_name_checks _ db module code_dag)
    as [[st db2] tags] eqn:Hpre.
  pose proof (collect_imports_status _ _ _ _ _ _ _ Hpre) as Hst.
  destruct (Z.ltb_spec st 0).
  { inversion H; subst. right. right. left. split; [lia|done]. }
  assert (st = 0) by lia. subst st.
  destruct (name_in_use db2 (dag_functions code_dag)) eqn:Hf;
    [inversion H; subst; right; right; left; auto|].
  destruct (name_in_use db2 (dag_materials code_dag)) eqn:Hm;
    [inversion H; subst; right; right; left; auto|].
  destruct (register_module db2 module code_dag tags) as [db3 t] eqn:Hreg.
  inversion H; subst. right. right. right. split; [done|].
  by exists code_dag, db2, tags.
Qed.



(** X7.  [create_module_internal] is idempotent: a module that was created
    with status 0 or found with status 1 is found again with status 1 and
    the same tag, and the second run changes nothing, provided the DB name
    of the module is not the DB name of one of its own definitions. *)
Theorem create_module_internal_idempotent :
  forall db module status db' tag,
    (forall code_dag,
        mod_compile module = Some code_dag ->
        ~ In (add_mdl_db_prefix (mod_name module))
            (db_names (dag_functions code_dag)
             ++ db_names (dag_materials code_dag))) ->
    create_module_internal update_resource_literals db module
      = (status, db', tag) ->
    0 <= status ->
    create_module_internal update_resource_literals db' module
    = (1, db', tag).
Proof.
  intros db module status db' tag Hnames H Hst.
  assert (Hvalid : mod_is_valid module = true).
  { rewrite create_module_internal_unfold in H.
    destruct (mod_is_valid module); [done|]. simpl in H.
    inversion H; subst; lia. }
  apply create_module_internal_cases in H.
  destruct H as [(-> & _)|[(-> & -> & Ht & Hs & Hc)|
                 [(Hneg & _)|(-> & cd & db1 & tags & Hcd & _ & _ & _ & Hreg)]]];
    try lia.
  - rewrite create_module_internal_existing by (done || by rewrite <- Ht).
    rewrite <- Ht, Hc. reflexivity.
  - destruct (register_module_registers db1 module cd tags db' tag
                (Hnames cd Hcd) Hreg) as (Hname & Hset & Hclass).
    rewrite create_module_internal_existing by (done || by rewrite Hname).
    rewrite Hname, Hclass. reflexivity.
Qed.

End Creation_outcomes.


Lemma create_module_internal_idempotent_witness :
  let created :=
    create_module_internal Samples.no_resources Samples.sample_db
      Samples.module_lib in
  create_module_internal Samples.no_resources (snd (fst created))
    Samples.module_lib
  = (1, snd (fst created), snd created).
Proof.
  intros created.
  apply (create_module_internal_idempotent Samples.no_resources
           Samples.sample_db Samples.module_lib 0).
  - intros code_dag Hcd. inversion Hcd; subst. simpl.
    intros [H|H]; [discriminate|done].
  - reflexivity.
  - lia.
Defined.

(** ** Growth of the transaction *)

Lemma grows_refl db : grows db db.
Proof. unfold grows. split; [lia|]. split; done. Qed.

Lemma grows_trans a b c : grows a b -> grows b c -> grows a c.
Proof.
  intros (Hn1 & He1 & Hb1) (Hn2 & He2 & Hb2). repeat split.
  - lia.
  - intros tag Htag. rewrite He2 by lia. by apply He1.
  - auto.
Qed.

Lemma grows_class a b (tag : Tag) :
  grows a b ->
  (tag < Npos (next_tag a))%N ->
  (tag < Npos (next_tag b))%N /\ get_class_id b tag = get_class_id a tag.
Proof.
  intros (Hn & He & _) Htag. split; [lia|].
  unfold get_class_id. by rewrite He.
Qed.

Lemma store_definitions_tags_below wrap entities :
  forall db db_module_tag,
    tags_below db ->
    tags_below (store_definitions wrap db db_module_tag entities).
Proof.
  induction entities as [|entity entities IH]; intros db db_module_tag Hb;
    [done|].
  simpl. destruct (dag_exported entity); apply IH; intros name tag; simpl;
    (destruct (decide (add_mdl_db_prefix (dag_name entity) = name))
      as [->|Hne];
     [rewrite lookup_insert_eq; intros [= <-]; lia
     |rewrite lookup_insert_ne by done; intros H; apply Hb in H; lia]).
Qed.

Lemma register_module_grows db module code_dag imports :
  grows db (fst (register_module db module code_dag imports)).
Proof.
  unfold register_module, store, reserve_tag. cbv zeta. simpl.
  set (db1 := store_at _ _ _ _).
  set (db2 := store_definitions El_function_definition db1 _ _).
  assert (Hnext1 : Npos (next_tag db1) = (Npos (next_tag db) + 1)%N)
    by (simpl; lia).
  pose proof (store_definitions_next_tag El_function_definition
                (dag_functions code_dag) db1 (Npos (next_tag db))) as Hn2.
  fold db2 in Hn2.
  pose proof (store_definitions_next_tag El_material_definition
                (dag_materials code_dag) db2 (Npos (next_tag db))) as Hn3.
  repeat split.
  - lia.
  - intros tag Htag.
    rewrite store_definitions_elements by lia.
    unfold db2. rewrite store_definitions_elements by lia.
    unfold db1. simpl. apply lookup_insert_ne. lia.
  - intros Hb. do 2 apply store_definitions_tags_below.
    intros name tag. unfold db1. simpl.
    destruct (decide (add_mdl_db_prefix (mod_name module) = name))
      as [->|Hne].
    + rewrite lookup_insert_eq. intros [= <-]. lia.
    + rewrite lookup_insert_ne by done. intros H. apply Hb in H. lia.
Qed.

Section Growth.

Variable update_resource_literals :
  Transaction -> Generated_code_dag -> IModule -> Transaction.
Hypothesis resources_grow : resources_only_add update_resource_literals.

Lemma collect_imports_grows todo :
  Forall (fun import =>
            forall db,
              grows db
                (snd (fst (create_module_internal update_resource_literals
                             db import)))) todo ->
  forall db tags,
    grows db
      (snd (fst (collect_imports update_resource_literals db todo tags))).
Proof.
  induction 1 as [|import todo Himport _ IH]; intros db tags; simpl;
    [apply grows_refl|].
  destruct (tag_is_set _).
  - destruct (negb _); [apply grows_refl|]. apply IH.
  - specialize (Himport db).
    destruct (create_module_internal _ db import) as [[result db1] tag].
    simpl in Himport.
    destruct (result <? 0); [done|].
    eapply grows_trans; [exact Himport|apply IH].
Qed.

Lemma create_module_internal_grows module :
  forall db,
    grows db
      (snd (fst (create_module_internal update_resource_literals db module))).
Proof.
  induction module as [module IH] using IModule_imports_ind.
  intros db. rewrite create_module_internal_unfold.
  destruct (negb (mod_is_valid module)); [apply grows_refl|]. cbv zeta.
  destruct (tag_is_set _).
  { destruct (negb _); apply grows_refl. }
  destruct (negb (mod_restore_import_entries module)); [apply grows_refl|].
  destruct (mod_compile module) as [code_dag|]; [|apply grows_refl].
  destruct (0 <? error_message_count code_dag)%nat; [apply grows_refl|].
  pose proof (collect_imports_grows _ IH
                (update_resource_literals db code_dag module) []) as Hpre.
  pose proof (grows_trans _ _ _ (resources_grow db code_dag module) Hpre)
    as Hpre'.
  unfold before_name_checks.
  destruct (collect_imports _ _ (mod_imports module) [])
    as [[st db2] tags]. simpl in Hpre'.
  destruct (st <? 0); [done|].
  destruct (name_in_use db2 (dag_functions code_dag)); [done|].
  destruct (name_in_use db2 (dag_materials code_dag)); [done|].
  pose proof (register_module_grows db2 module code_dag tags) as Hreg.
  destruct (register_module db2 module code_dag tags). simpl in *.
  eapply grows_trans; eassumption.
Qed.

Lemma create_module_internal_module db module status db' tag :
  tags_below db ->
  create_module_internal update_resource_literals db module
    = (status, db', tag) ->
  0 <= status ->
  (tag < Npos (next_tag db'))%N /\ get_class_id db' tag = ID_MDL_MODULE.
Proof.
  intros Hb H Hst.
  apply create_module_internal_cases in H.
  destruct H as [(-> & _)|[(-> & -> & Ht & Hs & Hc)|
                 [(Hneg & _)|(-> & cd & db1 & tags & _ & _ & _ & _ & Hreg)]]];
    try lia.
  - split; [|done]. apply (Hb (add_mdl_db_prefix (mod_name module))).
    subst tag. unfold name_to_tag in *.
    destruct (names db !! add_mdl_db_prefix (mod_name module)); [done|].
    discriminate.
  - pose proof (register_module_tag db1 module cd tags) as Ht.
    pose proof (register_module_element db1 module cd tags) as He.
    pose proof (register_module_grows db1 module cd tags) as (Hn & _ & _).
    rewrite Hreg in Ht, He, Hn. simpl in Ht, He, Hn. subst tag. split.
    + unfold register_module, store, reserve_tag in Hreg. cbv zeta in Hreg.
      inversion Hreg as [Hdb]. clear Hreg.
      match goal with
      | |- context [store_definitions El_material_definition ?d ?t ?l] =>
          pose proof (store_definitions_next_tag El_material_definition l d t)
            as H3
      end.
      match type of H3 with
      | context [store_definitions El_function_definition ?d ?t ?l] =>
          pose proof (store_definitions_next_tag El_function_definition l d t)
            as H2
      end.
      simpl in H2. lia.
    + unfold get_class_id, access_module in *.
      repeat case_match; simplify_eq; done.
Qed.

Lemma collect_imports_modules todo :
  forall db tags status db1 tags1,
    tags_below db ->
    Forall (fun tag : Tag =>
              (tag < Npos (next_tag db))%N
              /\ get_class_id db tag = ID_MDL_MODULE) tags ->
    collect_imports update_resource_literals db todo tags
      = (status, db1, tags1) ->
    0 <= status ->
    Forall (fun tag : Tag =>
              (tag < Npos (next_tag db1))%N
              /\ get_class_id db1 tag = ID_MDL_MODULE) tags1
    /\ List.length tags1 = (List.length tags + List.length todo)%nat.
Proof.
  induction todo as [|import todo IH];
    intros db tags status db1 tags1 Hb Htags H Hst; simpl in H.
  - inversion H; subst. split; [done|]. simpl. lia.
  - destruct (tag_is_set _) eqn:Hset.
    + destruct (class_id_eqb _ _) eqn:Hclass; simpl in H;
        [|inversion H; subst; lia].
      apply IH in H; try done.
      * destruct H as [H Hlen]. split; [done|].
        rewrite Hlen, length_app. simpl. lia.
      * apply Forall_app. split; [done|]. constructor; [|done]. split.
        -- apply (Hb (add_mdl_db_prefix (mod_name import))).
           unfold name_to_tag in *.
           destruct (names db !! add_mdl_db_prefix (mod_name import));
             [done|discriminate].
        -- destruct (get_class_id db _); simpl in Hclass; done.
    + destruct (create_module_internal _ db import)
        as [[result db2] tag] eqn:Hcreate.
      destruct (Z.ltb_spec result 0); [inversion H; subst; lia|].
      pose proof (create_module_internal_grows import db) as Hgrow.
      rewrite Hcreate in Hgrow. simpl in Hgrow.
      apply IH in H; try done.
      * destruct H as [H Hlen]. split; [done|].
        rewrite Hlen, length_app. simpl. lia.
      * by apply Hgrow.
      * apply Forall_app. split.
        -- eapply Forall_impl; [exact Htags|]. intros t [Ht Hc]. simpl.
           destruct (grows_class _ _ t Hgrow Ht) as [Ht' Hc'].
           split; [done|congruence].
        -- constructor; [|done].
           by eapply create_module_internal_module.
Qed.

(** X8.  With a resolver of resource literals that only adds elements, and
    bound names pointing to tags handed out before, a creation that
    returns 0 has stored the module under the returned tag with the tags
    of its imports, one for each import of the compiler's module, and every
    one of them is the tag of a module in the transaction it leaves
    behind. *)
Theorem imports_are_registered_modules :
  forall db module db' tag,
    tags_below db ->
    create_module_internal update_resource_literals db module
      = (0, db', tag) ->
    exists db_module,
      access_module db' tag = Ok db_module
      /\ m_module db_module = module
      /\ m_name db_module = mod_name module
      /\ List.length (m_imports db_module)
         = List.length (mod_imports module)
      /\ Forall (fun import_tag =>
                   get_class_id db' import_tag = ID_MDL_MODULE)
           (m_imports db_module).
Proof.
  intros db module db' tag Hb H.
  apply create_module_internal_cases in H.
  destruct H as [(? & _)|[(? & _)|
                 [([?|?] & _)|(_ & cd & db1 & tags & _ & Hpre & _ & _ & Hreg)]]];
    try discriminate.
  pose proof (register_module_element db1 module cd tags) as He.
  pose proof (register_module_grows db1 module cd tags) as Hgrow.
  rewrite Hreg in He, Hgrow. simpl in He, Hgrow.
  eexists. split; [exact He|]. simpl.
  unfold before_name_checks in Hpre.
  apply collect_imports_modules in Hpre; try done.
  - destruct Hpre as [Hmods Hlen]. repeat split; [done|].
    eapply Forall_impl; [exact Hmods|]. intros t [Ht Hc]. simpl.
    destruct (grows_class _ _ t Hgrow Ht) as [_ Hc']. congruence.
  - by apply (resources_grow db cd module).
Qed.

End Growth.

Lemma imports_are_registered_modules_witness :
  let created :=
    create_module_internal Samples.no_resources Samples.sample_db
      More_samples.module_two in
  exists db_module,
    access_module (snd (fst created)) (snd created) = Ok db_module
    /\ m_module db_module = More_samples.module_two
    /\ m_name db_module = "::two"
    /\ List.length (m_imports db_module) = 1%nat
    /\ Forall (fun import_tag =>
                 get_class_id (snd (fst created)) import_tag
                 = ID_MDL_MODULE)
         (m_imports db_module).
Proof.
  intros created.
  assert (Hgrow : resources_only_add Samples.no_resources)
    by (intros db code_dag module; apply grows_refl).
  assert (Hbelow : tags_below Samples.sample_db).
  { intros name tag H.
    apply (elem_of_list_to_map_2 (M := gmap string)) in H.
    simpl. repeat (apply elem_of_cons in H as [[= -> ->]|H]; [lia|]).
    by apply elem_of_nil in H. }
  exact (imports_are_registered_modules Samples.no_resources Hgrow
           Samples.sample_db More_samples.module_two (snd (fst created))
           (snd created) Hbelow eq_refl).
Defined.

(** ** The entry points *)

Lemma check_existing_status db module_name status :
  check_existing db module_name = Some status -> status = 1 \/ status = -3.
Proof.
  unfold check_existing. cbv zeta.
  destruct (tag_is_set _); [|discriminate].
  destruct (negb _); intros [= <-]; auto.
Qed.

Section Entry_points.

Variable update_resource_literals :
  Transaction -> Generated_code_dag -> IModule -> Transaction.
Variable is_valid_mdl_identifier : string -> bool.
Variable load_module : Transaction -> string -> option IModule.
Variable load_module_from_stream :
  Transaction -> string -> list ascii -> option IModule.

Lemma create_module_internal_quiet db module status db' tag :
  create_module_internal update_resource_literals db module
    = (status, db', tag) ->
  status <> 0 -> status <> -3 -> status <> -4 ->
  db' = db /\ (status = 1 \/ status = -2).
Proof.
  intros H H0 H3 H4. apply create_module_internal_cases in H.
  destruct H as [(-> & -> & _)|[(-> & -> & _)|[([?|?] & _)|(? & _)]]];
    auto; done.
Qed.

(** X9.  The entry points by name and from a stream leave the transaction
    as it was unless they return 0, -3 or -4, and they return -1 exactly
    for a name that is not valid; from a stream, the name [::<neuray>]
    counts as valid. *)
Theorem entry_points_fail_without_trace :
  (forall db module_name status db',
      create_module update_resource_literals is_valid_mdl_identifier
        load_module db module_name = (status, db') ->
      (status = -1 <->
       is_valid_module_name is_valid_mdl_identifier module_name = false)
      /\ (status <> 0 -> status <> -3 -> status <> -4 -> db' = db))
  /\ (forall db module_name module_source status db',
         create_module_from_source update_resource_literals
           is_valid_mdl_identifier load_module_from_stream db module_name
           module_source = (status, db') ->
         (status = -1 <->
          is_valid_module_name is_valid_mdl_identifier module_name = false
          /\ module_name <> "::<neuray>")
         /\ (status <> 0 -> status <> -3 -> status <> -4 -> db' = db)).
Proof.
  split.
  - intros db module_name status db' H. unfold create_module in H.
    destruct (is_valid_module_name _ module_name); simpl in H.
    + assert (Hrest : status <> -1
                      /\ (status <> 0 -> status <> -3 -> status <> -4 ->
                          db' = db)).
      { destruct (check_existing db module_name) as [st|] eqn:Hex.
        { inversion H; subst. apply check_existing_status in Hex.
          split; [lia|done]. }
        destruct (load_module db module_name) as [module|];
          [|inversion H; subst; split; [lia|done]].
        destruct (create_module_internal _ db module)
          as [[result db1] tag] eqn:Hcreate.
        inversion H; subst. split.
        - apply create_module_internal_status in Hcreate. lia.
        - intros H0 H3 H4.
          by destruct (create_module_internal_quiet _ _ _ _ _ Hcreate
                         H0 H3 H4). }
      destruct Hrest as [Hne Hquiet]. split; [|done].
      split; [done|discriminate].
    + inversion H; subst. split; [done|done].
  - intros db module_name module_source status db' H.
    unfold create_module_from_source in H.
    destruct (String.eqb_spec module_name "::<neuray>") as [Hn|Hn].
    + rewrite andb_false_r in H.
      assert (Hrest : status <> -1
                      /\ (status <> 0 -> status <> -3 -> status <> -4 ->
                          db' = db)).
      { destruct (check_existing db module_name) as [st|] eqn:Hex.
        { inversion H; subst st db'. apply check_existing_status in Hex.
          split; [lia|done]. }
        destruct (load_module_from_stream db module_name module_source)
          as [module|]; [|inversion H; split; [lia|done]].
        destruct (create_module_internal _ db module)
          as [[result db1] tag] eqn:Hcreate.
        inversion H; subst result db1. split.
        - apply create_module_internal_status in Hcreate. lia.
        - intros H0 H3 H4.
          by destruct (create_module_internal_quiet _ _ _ _ _ Hcreate
                         H0 H3 H4). }
      destruct Hrest as [Hne Hquiet]. split; [|done].
      split; [done|]. intros [_ Hno]. done.
    + rewrite andb_true_r in H.
      destruct (is_valid_module_name _ module_name); simpl in H.
      * assert (Hrest : status <> -1
                        /\ (status <> 0 -> status <> -3 -> status <> -4 ->
                            db' = db)).
        { destruct (check_existing db module_name) as [st|] eqn:Hex.
          { inversion H; subst st db'. apply check_existing_status in Hex.
            split; [lia|done]. }
          destruct (load_module_from_stream db module_name module_source)
            as [module|]; [|inversion H; split; [lia|done]].
          destruct (create_module_internal _ db module)
            as [[result db1] tag] eqn:Hcreate.
          inversion H; subst result db1. split.
          - apply create_module_internal_status in Hcreate. lia.
          - intros H0 H3 H4.
            by destruct (create_module_internal_quiet _ _ _ _ _ Hcreate
                           H0 H3 H4). }
        destruct Hrest as [Hne Hquiet]. split; [|done].
        split; [done|]. intros [Hno _]. discriminate.
      * inversion H; subst. split; [done|done].
Qed.

(** X10.  Creating a module by name is idempotent: after a run that
    returned 0 or 1, the next run for the same name returns 1 and changes
    nothing, when the loader answers with a module of the name it was
    asked for and the DB name of the module is not the DB name of one of
    its own definitions. *)
Theorem create_module_twice :
  forall db module_name status db',
    (forall module,
        load_module db module_name = Some module ->
        mod_name module = module_name
        /\ forall code_dag,
             mod_compile module = Some code_dag ->
             ~ In (add_mdl_db_prefix module_name)
                 (db_names (dag_functions code_dag)
                  ++ db_names (dag_materials code_dag))) ->
    create_module update_resource_literals is_valid_mdl_identifier
      load_module db module_name = (status, db') ->
    0 <= status ->
    create_module update_resource_literals is_valid_mdl_identifier
      load_module db' module_name = (1, db').
Proof.
  intros db module_name status db' Hload H Hst.
  unfold create_module in H |- *.
  destruct (is_valid_module_name _ module_name); simpl in H |- *;
    [|inversion H; subst; lia].
  assert (Hex : check_existing db' module_name = Some 1);
    [|by rewrite Hex].
  destruct (check_existing db module_name) as [st|] eqn:Hex.
  { inversion H; subst st db'.
    destruct (check_existing_status _ _ _ Hex) as [-> | ->]; [done|lia]. }
  destruct (load_module db module_name) as [module|];
    [|inversion H; subst; lia].
  destruct (Hload module eq_refl) as [Hname Hnames].
  destruct (create_module_internal _ db module)
    as [[result db1] tag] eqn:Hcreate.
  inversion H; subst result db1. clear H.
  apply create_module_internal_cases in Hcreate.
  destruct Hcreate as [(-> & _)|[(_ & -> & Ht & Hs & Hc)|
    [(Hneg & _)|(_ & cd & db1 & tags & Hcd & _ & _ & _ & Hreg)]]];
    try lia.
  - unfold check_existing in Hex. cbv zeta in Hex.
    rewrite <- Hname, <- Ht, Hs in Hex. by destruct (negb _).
  - destruct (register_module_registers db1 module cd tags db' tag)
      as (Hn & Hset & Hclass); [rewrite Hname; by apply Hnames|done|].
    unfold check_existing. cbv zeta.
    by rewrite <- Hname, Hn, Hset, Hclass.
Qed.

End Entry_points.

Lemma entry_points_fail_without_trace_witness :
  ((-1 = -1 <->
    is_valid_module_name Samples.mdl_identifier "::9" = false)
   /\ (-1 <> 0 -> -1 <> -3 -> -1 <> -4
       -> Samples.sample_db = Samples.sample_db))
  /\ ((-2 = -1 <->
       is_valid_module_name Samples.mdl_identifier "::x" = false
       /\ "::x" <> "::<neuray>")
      /\ (-2 <> 0 -> -2 <> -3 -> -2 <> -4
          -> Samples.sample_db = Samples.sample_db)).
Proof.
  split.
  - exact (proj1 (entry_points_fail_without_trace Samples.no_resources
                    Samples.mdl_identifier Samples.sample_loader
                    Samples.no_stream_loader)
             Samples.sample_db "::9" (-1) Samples.sample_db eq_refl).
  - exact (proj2 (entry_points_fail_without_trace Samples.no_resources
                    Samples.mdl_identifier Samples.sample_loader
                    Samples.no_stream_loader)
             Samples.sample_db "::x" [] (-2) Samples.sample_db eq_refl).
Defined.

Lemma create_module_twice_witness :
  let db1 :=
    snd (create_module Samples.no_resources Samples.mdl_identifier
           Samples.sample_loader Samples.sample_db "::lib") in
  create_module Samples.no_resources Samples.mdl_identifier
    Samples.sample_loader db1 "::lib" = (1, db1).
Proof.
  intros db1.
  apply (create_module_twice Samples.no_resources Samples.mdl_identifier
           Samples.sample_loader Samples.sample_db "::lib" 0 db1).
  - intros module [= <-]. split; [reflexivity|].
    intros code_dag [= <-]. simpl. intros [H|H]; [discriminate|done].
  - reflexivity.
  - lia.
Defined.

(** ** The version of a variant module *)

Lemma raise_version_comm max a b :
  raise_version (raise_version max a) b
  = raise_version (raise_version max b) a.
Proof.
  destruct max as [m1 m2], a as [a1 a2], b as [b1 b2].
  unfold raise_version.
  repeat match goal with
         | |- context [?x >? ?y] => destruct (Z.gtb_spec x y); simpl
         | |- context [?x =? ?y] => destruct (Z.eqb_spec x y); simpl
         end;
    try reflexivity; try lia; f_equal; lia.
Qed.

Lemma detect_version_perm db variant_data variant_data' :
  Permutation variant_data variant_data' ->
  Forall (fun pd => exists version, prototype_version db pd = Ok version)
    variant_data ->
  forall max,
    detect_version db variant_data' max = detect_version db variant_data max.
Proof.
  induction 1 as [|pd l l' Hperm IH|pd1 pd2 l|l l' l'' H1 IH1 H2 IH2];
    intros Hdef max.
  - reflexivity.
  - inversion Hdef as [|? ? [version Hpd] Hrest]; subst. simpl.
    rewrite Hpd. simpl. destruct version; [|done]. by apply IH.
  - inversion Hdef as [|? ? [v2 Hpd2] Hrest]; subst.
    inversion Hrest as [|? ? [v1 Hpd1] _]; subst. simpl.
    rewrite Hpd1, Hpd2. simpl.
    destruct v1 as [v1|], v2 as [v2|]; try done.
    by rewrite raise_version_comm.
  - rewrite IH2, IH1; [done|done|].
    eapply Permutation_Forall; [|exact Hdef]. done.
Qed.

Lemma detect_version_rejects db variant_data :
  Forall (fun pd => exists version, prototype_version db pd = Ok version)
    variant_data ->
  forall max,
    (exists status, detect_version db variant_data max = Ok (inl status))
    <-> exists pd, In pd variant_data /\ prototype_version db pd = Ok None.
Proof.
  induction 1 as [|pd l [version Hpd] _ IH]; intros max; simpl.
  - split; [intros [? ?]; discriminate|intros (? & [] & _)].
  - rewrite Hpd. simpl. destruct version as [version|].
    + rewrite IH. split.
      * intros (pd' & Hin & Hnone). exists pd'. auto.
      * intros (pd' & [<-|Hin] & Hnone); [congruence|]. by exists pd'.
    + split; [|by eexists]. intros _. exists pd. auto.
Qed.

(** X11.  When the lookup of every prototype is defined, the version of
    the module for a list of variants does not depend on the order of the
    variants, and the module is refused with -5 exactly when one of the
    prototypes is neither a function nor a material definition; no other
    status comes out of the detection. *)
Theorem variant_version_ignores_order :
  forall latest db variant_data,
    Forall (fun pd => exists version, prototype_version db pd = Ok version)
      variant_data ->
    (forall variant_data',
        Permutation variant_data variant_data' ->
        variant_module_version latest db variant_data'
        = variant_module_version latest db variant_data)
    /\ (variant_module_version latest db variant_data = Ok (inl (-5))
        <-> exists pd,
              In pd variant_data /\ prototype_version db pd = Ok None)
    /\ (forall status,
           variant_module_version latest db variant_data = Ok (inl status) ->
           status = -5).
Proof.
  intros latest db variant_data Hdef.
  assert (Hstatus : forall max status,
             detect_version db variant_data max = Ok (inl status) ->
             status = -5).
  { clear Hdef. induction variant_data as [|pd l IH]; intros max status;
      simpl; [discriminate|].
    destruct (prototype_version db pd) as [[version|]| |]; simpl;
      try discriminate; [apply IH|]. by intros [= <-]. }
  split; [|split].
  - intros variant_data' Hperm. unfold variant_module_version.
    by rewrite (detect_version_perm db _ _ Hperm Hdef).
  - rewrite <- (detect_version_rejects db variant_data Hdef (1, 0)).
    unfold variant_module_version.
    destruct (detect_version db variant_data (1, 0)) as [[status|max]| |]
      eqn:Hdetect; simpl.
    + rewrite (Hstatus _ _ Hdetect). split; [by eexists|done].
    + split; [discriminate|intros [? ?]; discriminate].
    + split; [discriminate|intros [? ?]; discriminate].
    + split; [discriminate|intros [? ?]; discriminate].
  - intros status. unfold variant_module_version.
    destruct (detect_version db variant_data (1, 0)) as [[st|max]| |]
      eqn:Hdetect; simpl; try discriminate.
    intros [= <-]. by eapply Hstatus.
Qed.

Lemma variant_version_ignores_order_witness :
  variant_module_version MDL_VERSION_1_4 Samples.sample_db
    [mkVariantData 2 "v2" None None; mkVariantData 14 "v1" None None]
  = variant_module_version MDL_VERSION_1_4 Samples.sample_db
      [mkVariantData 14 "v1" None None; mkVariantData 2 "v2" None None].
Proof.
  assert (Hdef : Forall (fun pd => exists version,
                            prototype_version Samples.sample_db pd
                            = Ok version)
                   [mkVariantData 14 "v1" None None;
                    mkVariantData 2 "v2" None None]).
  { repeat constructor; eexists; reflexivity. }
  apply (proj1 (variant_version_ignores_order MDL_VERSION_1_4
                  Samples.sample_db _ Hdef)).
  apply perm_swap.
Defined.

(** ** The declaration of a variant *)

Section Variant_shape.

Variable argument_type_matches_parameter_type : IType -> IType -> bool.
Variable int_expr_to_mdl_ast_expr :
  Transaction -> IType -> IExpression -> option Ast_expression.
Variable create_type_name : IType -> Type_name.
Variable add_annotation :
  Transaction -> list Ast_annotation -> string -> IExpression_list ->
  Z * list Ast_annotation.

Lemma check_defaults_status expected_types defaults :
  forall status,
    check_defaults argument_type_matches_parameter_type expected_types
      defaults = Some status ->
    status = -6 \/ status = -7.
Proof.
  induction defaults as [|[name default_] defaults IH]; intros status;
    simpl; [discriminate|].
  destruct (get_by_name expected_types name); [|intros [= <-]; auto].
  destruct (negb _); [intros [= <-]; auto|apply IH].
Qed.

Lemma variant_arguments_none db parameters :
  forall symbol_importer,
    variant_arguments int_expr_to_mdl_ast_expr db parameters []
      symbol_importer = (Some [], symbol_importer).
Proof. induction parameters as [|[n t] ps IH]; intros imp; simpl; auto. Qed.

Lemma variant_arguments_shape db defaults parameters :
  forall symbol_importer arguments importer,
    variant_arguments int_expr_to_mdl_ast_expr db parameters defaults
      symbol_importer = (Some arguments, importer) ->
    Forall2 (fun parameter argument =>
               fst argument = fst parameter
               /\ exists default_,
                    get_by_name defaults (fst parameter) = Some default_
                    /\ int_expr_to_mdl_ast_expr db (snd parameter) default_
                       = Some (snd argument))
      (List.filter
         (fun parameter => bool_decide
            (is_Some (get_by_name defaults (fst parameter))))
         parameters)
      arguments
    /\ importer
       = (symbol_importer
          ++ map (fun argument => Import_of_expression (snd argument))
               arguments)%list.
Proof.
  induction parameters as [|[arg_name arg_type] parameters IH];
    intros symbol_importer arguments importer H; simpl in H.
  - inversion H; subst. split; [constructor|]. simpl. by rewrite app_nil_r.
  - simpl. destruct (get_by_name defaults arg_name) as [default_|] eqn:Hd.
    + rewrite bool_decide_eq_true_2 by eauto.
      destruct (int_expr_to_mdl_ast_expr db arg_type default_)
        as [arg_expr|] eqn:Hc; [|discriminate].
      destruct (variant_arguments _ db parameters defaults _)
        as [[rest|] importer1] eqn:Hrest; simpl in H; [|discriminate].
      inversion H; subst. apply IH in Hrest. destruct Hrest as [Hargs ->].
      split.
      * constructor; [|exact Hargs]. simpl. split; [done|].
        exists default_. by rewrite Hd.
      * simpl. by rewrite <- app_assoc.
    + rewrite bool_decide_eq_false_2 by (intros [? ?]; discriminate).
      by apply IH.
Qed.

(** X12.  A variant that [add_variant] accepts is one new declaration at
    the end of the module: an exported clone with the requested name whose
    body calls the prototype, after following its own prototype reference,
    with exactly the overridden parameters, in the order of the
    prototype's parameters whatever the order of the request, each
    converted for the type of its parameter.  The importer has seen the
    converted overrides, the annotations and the call, in this order.  A
    status other than 0 leaves the module as it was. *)
Theorem variant_overrides_follow_the_prototype :
  forall is_material symbol_importer db module prototype target variant_name
         defaults annotation_block status importer module',
    (if tag_is_set (def_prototype prototype)
     then access_prototype is_material db (def_prototype prototype)
     else Ok prototype) = Ok target ->
    add_variant argument_type_matches_parameter_type
      int_expr_to_mdl_ast_expr create_type_name add_annotation is_material
      symbol_importer db module prototype variant_name defaults
      annotation_block = Ok (status, importer, module') ->
    (status <> 0 -> module' = module)
    /\ (status = 0 ->
        exists arguments block,
          module'
          = add_declaration module
              (mkDeclaration
                 (create_return_type_name create_type_name is_material target)
                 variant_name true
                 (Ast_call (Ast_reference (def_mdl_name target)) arguments)
                 block true [])
          /\ Forall2 (fun parameter argument =>
                        fst argument = fst parameter
                        /\ exists default_,
                             get_by_name (default [] defaults)
                               (fst parameter) = Some default_
                             /\ int_expr_to_mdl_ast_expr db (snd parameter)
                                  default_ = Some (snd argument))
               (List.filter
                  (fun parameter => bool_decide
                     (is_Some (get_by_name (default [] defaults)
                                 (fst parameter))))
                  (def_parameter_types target))
               arguments
          /\ exists seen,
               importer
               = (seen
                  ++ [Import_of_expression
                        (Ast_call (Ast_reference (def_mdl_name target))
                           arguments)])%list
               /\ create_annotations add_annotation db annotation_block
                    (symbol_importer
                     ++ map (fun argument =>
                               Import_of_expression (snd argument))
                          arguments)%list
                  = (0, seen, block)).
Proof.
  intros is_material symbol_importer db module prototype target variant_name
         defaults annotation_block status importer module' Htarget H.
  unfold add_variant in H. rewrite Htarget in H. simpl in H.
  destruct (check_defaults _ _ _) as [st|] eqn:Hcheck.
  { apply check_defaults_status in Hcheck. inversion H; subst.
    split; [done|lia]. }
  assert (Hargs : exists arguments importer1,
             match defaults with
             | Some defaults =>
                 variant_arguments int_expr_to_mdl_ast_expr db
                   (def_parameter_types target) defaults symbol_importer
             | None => (Some [], symbol_importer)
             end = (arguments, importer1)
             /\ variant_arguments int_expr_to_mdl_ast_expr db
                  (def_parameter_types target) (default [] defaults)
                  symbol_importer = (arguments, importer1)).
  { destruct defaults as [defaults|]; simpl.
    - destruct (variant_arguments _ _ _ _ _) as [a i]. by exists a, i.
    - exists (Some []), symbol_importer. split; [done|].
      apply variant_arguments_none. }
  destruct Hargs as (arguments & importer1 & Heq & Hshape).
  rewrite Heq in H.
  destruct arguments as [arguments|];
    [|inversion H; subst; split; [done|discriminate]].
  apply variant_arguments_shape in Hshape. destruct Hshape as [Hshape ->].
  destruct (create_annotations add_annotation db annotation_block _)
    as [[result importer2] block] eqn:Hannos.
  destruct (Z.eqb_spec result 0) as [->|Hne]; simpl in H.
  - inversion H; subst. split; [done|]. intros _.
    exists arguments, block. split; [done|]. split; [exact Hshape|].
    by exists importer2.
  - inversion H; subst. split; [done|]. done.
Qed.

End Variant_shape.

Lemma variant_overrides_follow_the_prototype_witness :
  exists arguments block,
    snd (match
           add_variant Samples.same_kind Samples.convert_expr
             Samples.plain_type_name Samples.accept_annotation false []
             Samples.sample_db (mdl_create_module "::new" MDL_VERSION_1_3)
             Samples.def_ternary "pick"
             (Some [("false_exp", Samples.const_105);
                    ("cond", Samples.const_103)]) None
         with
         | Ok r => r
         | _ => (0, [], mdl_create_module "" MDL_VERSION_1_0)
         end)
    = add_declaration (mdl_create_module "::new" MDL_VERSION_1_3)
        (mkDeclaration (Samples.plain_type_name Samples.float_plain) "pick"
           true
           (Ast_call (Ast_reference "operator?(bool,<0>,<0>)") arguments)
           block true [])
    /\ map fst arguments = ["cond"; "false_exp"].
Proof.
  destruct (proj2 (variant_overrides_follow_the_prototype Samples.same_kind
                     Samples.convert_expr Samples.plain_type_name
                     Samples.accept_annotation false [] Samples.sample_db
                     (mdl_create_module "::new" MDL_VERSION_1_3)
                     Samples.def_ternary Samples.def_ternary "pick"
                     (Some [("false_exp", Samples.const_105);
                            ("cond", Samples.const_103)]) None
                     0 _ _ eq_refl eq_refl) eq_refl)
    as (arguments & block & Hmodule & Hargs & _).
  exists arguments, block. split; [exact Hmodule|].
  simpl in Hargs.
  inversion Hargs as [|p1 a1 ps1 as1 [Hn1 _] Hrest1]; subst.
  inversion Hrest1 as [|p2 a2 ps2 as2 [Hn2 _] Hrest2]; subst.
  inversion Hrest2; subst. simpl. by rewrite Hn1, Hn2.
Defined.

(** ** The declaration of a material *)

Lemma new_parameters_status fuel db args param_types parameters :
  forall status,
    new_parameters fuel db args param_types parameters = Ok (inl status) ->
    status = -13 \/ status = -15.
Proof.
  induction parameters as [|pd parameters IH]; intros status; simpl;
    [discriminate|].
  destruct (find_path db (pd_path pd) args) as [expr|];
    [|intros [= <-]; auto].
  unfold mbind, res_bind.
  destruct (can_enforce_uniform fuel db args param_types (pd_path pd) expr)
    as [[possible must]| |]; try discriminate.
  destruct (negb possible); [intros [= <-]; auto|].
  destruct (new_parameters fuel db args param_types parameters)
    as [[st|rest]| |]; try discriminate.
  intros [= <-]. by apply IH.
Qed.


Section Material_shape.

Variable create_type_name : IType -> Type_name.
Variable transform_expr :
  list (string * IExpression) -> IExpression -> Ast_expression.
Variable get_temporary_symbol : nat -> string.
Variable add_annotation :
  Transaction -> list Ast_annotation -> string -> IExpression_list ->
  Z * list Ast_annotation.



Lemma bind_arguments_shape declared args :
  forall i,
    List.length (fst (bind_arguments create_type_name transform_expr
                        get_temporary_symbol declared args i))
    = List.length args
    /\ List.length (snd (bind_arguments create_type_name transform_expr
                           get_temporary_symbol declared args i))
       = List.length args
    /\ forall k pname arg,
         args !! k = Some (pname, arg) ->
         fst (bind_arguments create_type_name transform_expr
                get_temporary_symbol declared args i) !! k
         = Some (create_type_name (get_type arg),
                 get_temporary_symbol (i + k),
                 transform_expr declared arg)
         /\ snd (bind_arguments create_type_name transform_expr
                   get_temporary_symbol declared args i) !! k
            = Some (pname, Ast_reference (get_temporary_symbol (i + k))).
Proof.
  induction args as [|[pname0 arg0] args IH]; intros i; simpl.
  - repeat split; done.
  - specialize (IH (S i)).
    destruct (bind_arguments _ _ _ declared args (S i))
      as [declarations arguments].
    simpl in *. destruct IH as (Hl1 & Hl2 & IH).
    split; [lia|]. split; [lia|].
    intros [|k] pname arg Hk; simpl in Hk.
    + inversion Hk; subst. simpl. by rewrite Nat.add_0_r.
    + simpl. destruct (IH k pname arg Hk) as [H1 H2].
      by rewrite H1, H2, Nat.add_succ_r.
Qed.

(** The steps of a run of [add_material] that returns 0. *)
Lemma add_material_success fuel symbol_importer db module callee md importer
    module1 :
  add_material create_type_name transform_expr get_temporary_symbol
    add_annotation fuel symbol_importer db module callee md
  = Ok (0, importer, module1) ->
  exists args new_params importer1 block importer3 params,
    get_arguments callee = Some args
    /\ new_parameters fuel db args (get_parameter_types callee)
         (md_parameters md) = Ok (inr new_params)
    /\ create_annotations add_annotation db (md_annotations md)
         symbol_importer = (0, importer1, block)
    /\ let declared := map (fun pd => (np_sym pd, np_init pd)) new_params in
       let callee_ref := Ast_reference (get_abs_name callee) in
       let res_expr :=
         if (0 <? List.length args)%nat then
           let '(declarations, arguments) :=
             bind_arguments create_type_name transform_expr
               get_temporary_symbol declared args 0 in
           Ast_let declarations (Ast_call callee_ref arguments)
         else Ast_call callee_ref [] in
       build_parameters create_type_name transform_expr add_annotation db
         (importer1 ++ [Import_of_expression res_expr])%list new_params
       = (0, importer3, params)
       /\ importer
          = (importer3 ++ [Import_of_used_user_types declared])%list
       /\ module1
          = add_declaration module
              (mkDeclaration (mkTypeName (Tn_named "material") FQ_NONE)
                 (md_material_name md) false res_expr block true params).
Proof.
  intros H. unfold add_material in H.
  destruct (get_arguments callee) as [args|] eqn:Hargs.
  - assert (H' : (collected ←
                    new_parameters fuel db args (get_parameter_types callee)
                      (md_parameters md);
                  match collected with
                  | inl status => Ok (status, symbol_importer, module)
                  | inr new_params =>
                      let '(result, importer1, mdl_annotation_block) :=
                        create_annotations add_annotation db
                          (md_annotations md) symbol_importer in
                      if negb (result =? 0)
                      then Ok (result, importer1, module)
                      else
                        args ← of_option (Some args);
                        let declared :=
                          map (fun pd => (np_sym pd, np_init pd))
                            new_params in
                        let callee_ref :=
                          Ast_reference (get_abs_name callee) in
                        let res_expr :=
                          if (0 <? List.length args)%nat then
                            let '(declarations, arguments) :=
                              bind_arguments create_type_name transform_expr
                                get_temporary_symbol declared args 0 in
                            Ast_let declarations
                              (Ast_call callee_ref arguments)
                          else Ast_call callee_ref [] in
                        let importer2 :=
                          (importer1 ++ [Import_of_expression res_expr])%list
                        in
                        let '(status, importer3, params) :=
                          build_parameters create_type_name transform_expr
                            add_annotation db importer2 new_params in
                        if negb (status =? 0)
                        then Ok (status, importer3, module)
                        else
                          let fdecl :=
                            mkDeclaration
                              (mkTypeName (Tn_named "material") FQ_NONE)
                              (md_material_name md) false res_expr
                              mdl_annotation_block true params in
                          let importer4 :=
                            (importer3
                             ++ [Import_of_used_user_types declared])%list in
                          Ok (0, importer4, add_declaration module fdecl)
                  end) = Ok (0, importer, module1)).
    { by destruct (md_parameters md). }
    clear H. unfold mbind, res_bind in H'.
    destruct (new_parameters fuel db args _ _) as [[status|new_params]| |]
      eqn:Hnew; try discriminate.
    { apply new_parameters_status in Hnew. inversion H'; subst. lia. }
    destruct (create_annotations add_annotation db (md_annotations md)
                symbol_importer) as [[result importer1] block].
    destruct (Z.eqb_spec result 0) as [->|Hne]; simpl in H';
      [|inversion H'; subst; done].
    cbv zeta in H'.
    match type of H' with
    | context [build_parameters ?a ?b ?c ?d ?e ?f] =>
        destruct (build_parameters a b c d e f)
          as [[status importer3] params] eqn:Hbuild
    end.
    destruct (Z.eqb_spec status 0) as [->|Hne]; simpl in H';
      [|inversion H'; subst; done].
    inversion H'; subst; clear H'.
    exists args, new_params, importer1, block, importer3, params.
    cbv zeta. repeat split; done.
  - exfalso. destruct (md_parameters md); [|discriminate].
    simpl in H.
    destruct (create_annotations add_annotation db (md_annotations md)
                symbol_importer) as [[result importer1] block].
    destruct (Z.eqb_spec result 0) as [->|Hne]; simpl in H;
      [discriminate|].
    inversion H; subst. done.
Qed.

(** X13.  The material that [add_material] declares on success is exported
    and no clone, has the requested name and the return type [material];
    its body calls the callee by its absolute name.  When the callee has
    arguments the call sits in a [let] with one temporary for each argument,
    in the callee's order: temporary [k] holds the transformed argument [k]
    under its type, and the call passes it under the argument's name; the
    transformation knows the new parameters by name and resolved
    expression.  When it has none, the body is the bare call. *)
Theorem material_body_binds_every_argument :
  forall fuel symbol_importer db module callee md importer module1,
    add_material create_type_name transform_expr get_temporary_symbol
      add_annotation fuel symbol_importer db module callee md
    = Ok (0, importer, module1) ->
    exists args fdecl declared,
      get_arguments callee = Some args
      /\ module1 = add_declaration module fdecl
      /\ decl_name fdecl = md_material_name md
      /\ decl_is_clone fdecl = false
      /\ decl_is_exported fdecl = true
      /\ decl_return_type fdecl = mkTypeName (Tn_named "material") FQ_NONE
      /\ Forall2 (fun pd d =>
                    fst d = pd_name pd
                    /\ find_path db (pd_path pd) args = Some (snd d))
           (md_parameters md) declared
      /\ match args with
         | [] =>
             decl_body fdecl
             = Ast_call (Ast_reference (get_abs_name callee)) []
         | _ :: _ =>
             exists declarations arguments,
               decl_body fdecl
               = Ast_let declarations
                   (Ast_call (Ast_reference (get_abs_name callee))
                      arguments)
               /\ List.length declarations = List.length args
               /\ List.length arguments = List.length args
               /\ forall k pname arg,
                    args !! k = Some (pname, arg) ->
                    declarations !! k
                    = Some (create_type_name (get_type arg),
                            get_temporary_symbol k,
                            transform_expr declared arg)
                    /\ arguments !! k
                       = Some (pname,
                               Ast_reference (get_temporary_symbol k))
         end.
Proof.
  intros fuel symbol_importer db module callee md importer module1 H.
  apply add_material_success in H.
  destruct H as (args & new_params & importer1 & block & importer3 & params
                 & Hargs & Hnew & _ & _ & _ & ->).
  eexists args, _, (map (fun pd => (np_sym pd, np_init pd)) new_params).
  split; [done|]. split; [reflexivity|]. simpl.
  repeat split.
  - apply new_parameters_resolved in Hnew.
    induction Hnew as [|pd np ps nps [Hsym Hfind] _ IH]; simpl;
      constructor; auto.
  - destruct args as [|a args]; [reflexivity|].
    change (0 <? List.length (a :: args))%nat with true. cbv iota.
    pose proof (bind_arguments_shape
                  (map (fun pd => (np_sym pd, np_init pd)) new_params)
                  (a :: args) 0) as Hshape.
    destruct (bind_arguments _ _ _ _ (a :: args) 0)
      as [declarations arguments].
    destruct Hshape as (Hl1 & Hl2 & Hk).
    exists declarations, arguments. repeat split; try done.
    + by destruct (Hk k pname arg H).
    + by destruct (Hk k pname arg H).
Qed.


(** X15.  A callee without an argument list never yields a material:
    [add_material] returns -6 when parameters are requested, and otherwise
    the status of a failed annotation, or it reads the size of the list
    that is not there. *)
Theorem material_of_callee_without_arguments :
  forall fuel symbol_importer db module callee md,
    get_arguments callee = None ->
    (md_parameters md <> [] ->
     add_material create_type_name transform_expr get_temporary_symbol
       add_annotation fuel symbol_importer db module callee md
     = Ok (-6, symbol_importer, module))
    /\ (md_parameters md = [] ->
        add_material create_type_name transform_expr get_temporary_symbol
          add_annotation fuel symbol_importer db module callee md
        = let '(result, importer1, _) :=
            create_annotations add_annotation db (md_annotations md)
              symbol_importer in
          if result =? 0 then Undefined
          else Ok (result, importer1, module)).
Proof.
  intros fuel symbol_importer db module callee md Hargs.
  unfold add_material. rewrite Hargs. split.
  - intros Hne. by destruct (md_parameters md).
  - intros ->. simpl.
    destruct (create_annotations add_annotation db (md_annotations md)
                symbol_importer) as [[result importer1] block].
    by destruct (result =? 0).
Qed.

End Material_shape.

Lemma material_body_binds_every_argument_witness :
  exists fdecl declarations arguments,
    snd (match
           add_material Samples.plain_type_name Samples.transform
             Samples.temporary_name Samples.accept_annotation 1 []
             Samples.sample_db (mdl_create_module "::new" MDL_VERSION_1_3)
             Samples.textured_call Samples.textured_request
         with
         | Ok r => r
         | _ => (0, [], mdl_create_module "" MDL_VERSION_1_0)
         end)
    = add_declaration (mdl_create_module "::new" MDL_VERSION_1_3) fdecl
    /\ decl_name fdecl = "promoted"
    /\ decl_body fdecl
       = Ast_let declarations
           (Ast_call (Ast_reference "::m::T(color,texture_2d)") arguments)
    /\ arguments !! 1%nat = Some ("tex", Ast_reference "tmp1").
Proof.
  destruct (material_body_binds_every_argument Samples.plain_type_name
              Samples.transform Samples.temporary_name
              Samples.accept_annotation 1%nat [] Samples.sample_db
              (mdl_create_module "::new" MDL_VERSION_1_3)
              Samples.textured_call Samples.textured_request _ _ eq_refl)
    as (args & fdecl & declared & Hargs & Hmodule & Hname & _ & _ & _ & _
        & Hbody).
  injection Hargs as <-.
  destruct Hbody as (declarations & arguments & Hbody & _ & _ & Hk).
  exists fdecl, declarations, arguments.
  split; [exact Hmodule|]. split; [exact Hname|]. split; [exact Hbody|].
  exact (proj2 (Hk 1%nat "tex" Samples.const_106 eq_refl)).
Defined.


Lemma material_of_callee_without_arguments_witness :
  add_material Samples.plain_type_name Samples.transform
    Samples.temporary_name Samples.accept_annotation 1 [] Samples.sample_db
    (mdl_create_module "::new" MDL_VERSION_1_3)
    (mkCall "::m::M(color)" None [])
    (mkMaterialData "bare" [mkParameterData "tint" "t" false None] None)
  = Ok (-6, [], mdl_create_module "::new" MDL_VERSION_1_3)
  /\ add_material Samples.plain_type_name Samples.transform
       Samples.temporary_name Samples.accept_annotation 1 []
       Samples.sample_db (mdl_create_module "::new" MDL_VERSION_1_3)
       (mkCall "::m::M(color)" None []) (mkMaterialData "bare" [] None)
     = Undefined.
Proof.
  split.
  - apply (material_of_callee_without_arguments Samples.plain_type_name
             Samples.transform Samples.temporary_name
             Samples.accept_annotation 1%nat [] Samples.sample_db
             (mdl_create_module "::new" MDL_VERSION_1_3)
             (mkCall "::m::M(color)" None [])
             (mkMaterialData "bare" [mkParameterData "tint" "t" false None]
                None) eq_refl).
    discriminate.
  - exact (proj2 (material_of_callee_without_arguments
                    Samples.plain_type_name Samples.transform
                    Samples.temporary_name Samples.accept_annotation 1%nat []
                    Samples.sample_db
                    (mdl_create_module "::new" MDL_VERSION_1_3)
                    (mkCall "::m::M(color)" None [])
                    (mkMaterialData "bare" [] None) eq_refl) eq_refl).
Defined.
